(** * Carousel home screen of the photo booth kiosk

    A shallow embedding of the script of the home-screen component
    (the carousel, its pointer-gesture interpreter, the session-start modal
    and the image preload cache) together with the properties of its
    navigation, gesture, modal and cache logic.

    Conventions of the embedding.
    - Every [ref] of the component is a field of [State]; a handler is a
      computation in the monad [M], which threads the state and records the
      calls and external requests the handler makes.
    - Pointer coordinates and widths are integer CSS pixels ([Z]); the
      navigation threshold, which involves a quarter of the width, is a
      rational ([Q]).
    - The [async] function [confirmStart] is split at its [await]: the part
      that runs when it is invoked, and the continuation that runs when the
      request settles. *)

From Stdlib Require Import ZArith QArith Qminmax List Ascii String Bool Lia.
From Stdlib Require Import Permutation.
Import ListNotations.
Close Scope Q_scope.
Open Scope string_scope.
Open Scope list_scope.
Open Scope Z_scope.

(** ** Data model *)

(** A slide is either a promo image or the synthetic placeholder. *)
Inductive Slide : Type :=
| ImageSlide (id src alt : string)
| PlaceholderSlide (id message : string).

Inductive SlideType : Type := image | placeholder.

Definition slide_type (sl : Slide) : SlideType :=
  match sl with
  | ImageSlide _ _ _ => image
  | PlaceholderSlide _ _ => placeholder
  end.

Definition slide_id (sl : Slide) : string :=
  match sl with
  | ImageSlide i _ _ => i
  | PlaceholderSlide i _ => i
  end.

Definition placeholderSlide : Slide :=
  PlaceholderSlide "placeholder" "No promos available".

(** The reactive state of the component.  [cursorTimer] tells whether a
    hide-cursor timeout is pending; [preloadCache] lists the members of the
    JavaScript [Set] in insertion order; [requestsInFlight] counts the
    session-start requests issued and not yet settled (it belongs to the
    event loop, not to the component, and no handler reads it). *)
Record State : Type := mkState {
  slidesSource : list Slide;
  allowTransition : bool;
  trackPosition : Z;
  currentIndex : Z;
  containerWidth : Z;
  dragOffset : Z;
  isAnimating : bool;
  isPointerDown : bool;
  isDragging : bool;
  pointerId : option Z;
  dragStartX : Z;
  isModalOpen : bool;
  isStartingSession : bool;
  modalError : string;
  cursorHidden : bool;
  cursorTimer : bool;
  preloadCache : list string;
  requestsInFlight : nat
}.

(** Assignment to one [ref]. *)
Definition set_allowTransition (v : bool) (s : State) : State :=
  {| slidesSource := slidesSource s; allowTransition := v;
     trackPosition := trackPosition s; currentIndex := currentIndex s;
     containerWidth := containerWidth s; dragOffset := dragOffset s;
     isAnimating := isAnimating s; isPointerDown := isPointerDown s;
     isDragging := isDragging s; pointerId := pointerId s;
     dragStartX := dragStartX s; isModalOpen := isModalOpen s;
     isStartingSession := isStartingSession s; modalError := modalError s;
     cursorHidden := cursorHidden s; cursorTimer := cursorTimer s;
     preloadCache := preloadCache s;
     requestsInFlight := requestsInFlight s |}.

Definition set_trackPosition (v : Z) (s : State) : State :=
  {| slidesSource := slidesSource s; allowTransition := allowTransition s;
     trackPosition := v; currentIndex := currentIndex s;
     containerWidth := containerWidth s; dragOffset := dragOffset s;
     isAnimating := isAnimating s; isPointerDown := isPointerDown s;
     isDragging := isDragging s; pointerId := pointerId s;
     dragStartX := dragStartX s; isModalOpen := isModalOpen s;
     isStartingSession := isStartingSession s; modalError := modalError s;
     cursorHidden := cursorHidden s; cursorTimer := cursorTimer s;
     preloadCache := preloadCache s;
     requestsInFlight := requestsInFlight s |}.

Definition set_currentIndex (v : Z) (s : State) : State :=
  {| slidesSource := slidesSource s; allowTransition := allowTransition s;
     trackPosition := trackPosition s; currentIndex := v;
     containerWidth := containerWidth s; dragOffset := dragOffset s;
     isAnimating := isAnimating s; isPointerDown := isPointerDown s;
     isDragging := isDragging s; pointerId := pointerId s;
     dragStartX := dragStartX s; isModalOpen := isModalOpen s;
     isStartingSession := isStartingSession s; modalError := modalError s;
     cursorHidden := cursorHidden s; cursorTimer := cursorTimer s;
     preloadCache := preloadCache s;
     requestsInFlight := requestsInFlight s |}.

Definition set_containerWidth (v : Z) (s : State) : State :=
  {| slidesSource := slidesSource s; allowTransition := allowTransition s;
     trackPosition := trackPosition s; currentIndex := currentIndex s;
     containerWidth := v; dragOffset := dragOffset s;
     isAnimating := isAnimating s; isPointerDown := isPointerDown s;
     isDragging := isDragging s; pointerId := pointerId s;
     dragStartX := dragStartX s; isModalOpen := isModalOpen s;
     isStartingSession := isStartingSession s; modalError := modalError s;
     cursorHidden := cursorHidden s; cursorTimer := cursorTimer s;
     preloadCache := preloadCache s;
     requestsInFlight := requestsInFlight s |}.

Definition set_dragOffset (v : Z) (s : State) : State :=
  {| slidesSource := slidesSource s; allowTransition := allowTransition s;
     trackPosition := trackPosition s; currentIndex := currentIndex s;
     containerWidth := containerWidth s; dragOffset := v;
     isAnimating := isAnimating s; isPointerDown := isPointerDown s;
     isDragging := isDragging s; pointerId := pointerId s;
     dragStartX := dragStartX s; isModalOpen := isModalOpen s;
     isStartingSession := isStartingSession s; modalError := modalError s;
     cursorHidden := cursorHidden s; cursorTimer := cursorTimer s;
     preloadCache := preloadCache s;
     requestsInFlight := requestsInFlight s |}.

Definition set_isAnimating (v : bool) (s : State) : State :=
  {| slidesSource := slidesSource s; allowTransition := allowTransition s;
     trackPosition := trackPosition s; currentIndex := currentIndex s;
     containerWidth := containerWidth s; dragOffset := dragOffset s;
     isAnimating := v; isPointerDown := isPointerDown s;
     isDragging := isDragging s; pointerId := pointerId s;
     dragStartX := dragStartX s; isModalOpen := isModalOpen s;
     isStartingSession := isStartingSession s; modalError := modalError s;
     cursorHidden := cursorHidden s; cursorTimer := cursorTimer s;
     preloadCache := preloadCache s;
     requestsInFlight := requestsInFlight s |}.

Definition set_isPointerDown (v : bool) (s : State) : State :=
  {| slidesSource := slidesSource s; allowTransition := allowTransition s;
     trackPosition := trackPosition s; currentIndex := currentIndex s;
     containerWidth := containerWidth s; dragOffset := dragOffset s;
     isAnimating := isAnimating s; isPointerDown := v;
     isDragging := isDragging s; pointerId := pointerId s;
     dragStartX := dragStartX s; isModalOpen := isModalOpen s;
     isStartingSession := isStartingSession s; modalError := modalError s;
     cursorHidden := cursorHidden s; cursorTimer := cursorTimer s;
     preloadCache := preloadCache s;
     requestsInFlight := requestsInFlight s |}.

Definition set_isDragging (v : bool) (s : State) : State :=
  {| slidesSource := slidesSource s; allowTransition := allowTransition s;
     trackPosition := trackPosition s; currentIndex := currentIndex s;
     containerWidth := containerWidth s; dragOffset := dragOffset s;
     isAnimating := isAnimating s; isPointerDown := isPointerDown s;
     isDragging := v; pointerId := pointerId s; dragStartX := dragStartX s;
     isModalOpen := isModalOpen s; isStartingSession := isStartingSession s;
     modalError := modalError s; cursorHidden := cursorHidden s;
     cursorTimer := cursorTimer s; preloadCache := preloadCache s;
     requestsInFlight := requestsInFlight s |}.

Definition set_pointerId (v : option Z) (s : State) : State :=
  {| slidesSource := slidesSource s; allowTransition := allowTransition s;
     trackPosition := trackPosition s; currentIndex := currentIndex s;
     containerWidth := containerWidth s; dragOffset := dragOffset s;
     isAnimating := isAnimating s; isPointerDown := isPointerDown s;
     isDragging := isDragging s; pointerId := v; dragStartX := dragStartX s;
     isModalOpen := isModalOpen s; isStartingSession := isStartingSession s;
     modalError := modalError s; cursorHidden := cursorHidden s;
     cursorTimer := cursorTimer s; preloadCache := preloadCache s;
     requestsInFlight := requestsInFlight s |}.

Definition set_dragStartX (v : Z) (s : State) : State :=
  {| slidesSource := slidesSource s; allowTransition := allowTransition s;
     trackPosition := trackPosition s; currentIndex := currentIndex s;
     containerWidth := containerWidth s; dragOffset := dragOffset s;
     isAnimating := isAnimating s; isPointerDown := isPointerDown s;
     isDragging := isDragging s; pointerId := pointerId s; dragStartX := v;
     isModalOpen := isModalOpen s; isStartingSession := isStartingSession s;
     modalError := modalError s; cursorHidden := cursorHidden s;
     cursorTimer := cursorTimer s; preloadCache := preloadCache s;
     requestsInFlight := requestsInFlight s |}.

Definition set_isModalOpen (v : bool) (s : State) : State :=
  {| slidesSource := slidesSource s; allowTransition := allowTransition s;
     trackPosition := trackPosition s; currentIndex := currentIndex s;
     containerWidth := containerWidth s; dragOffset := dragOffset s;
     isAnimating := isAnimating s; isPointerDown := isPointerDown s;
     isDragging := isDragging s; pointerId := pointerId s;
     dragStartX := dragStartX s; isModalOpen := v;
     isStartingSession := isStartingSession s; modalError := modalError s;
     cursorHidden := cursorHidden s; cursorTimer := cursorTimer s;
     preloadCache := preloadCache s;
     requestsInFlight := requestsInFlight s |}.

Definition set_isStartingSession (v : bool) (s : State) : State :=
  {| slidesSource := slidesSource s; allowTransition := allowTransition s;
     trackPosition := trackPosition s; currentIndex := currentIndex s;
     containerWidth := containerWidth s; dragOffset := dragOffset s;
     isAnimating := isAnimating s; isPointerDown := isPointerDown s;
     isDragging := isDragging s; pointerId := pointerId s;
     dragStartX := dragStartX s; isModalOpen := isModalOpen s;
     isStartingSession := v; modalError := modalError s;
     cursorHidden := cursorHidden s; cursorTimer := cursorTimer s;
     preloadCache := preloadCache s;
     requestsInFlight := requestsInFlight s |}.

Definition set_modalError (v : string) (s : State) : State :=
  {| slidesSource := slidesSource s; allowTransition := allowTransition s;
     trackPosition := trackPosition s; currentIndex := currentIndex s;
     containerWidth := containerWidth s; dragOffset := dragOffset s;
     isAnimating := isAnimating s; isPointerDown := isPointerDown s;
     isDragging := isDragging s; pointerId := pointerId s;
     dragStartX := dragStartX s; isModalOpen := isModalOpen s;
     isStartingSession := isStartingSession s; modalError := v;
     cursorHidden := cursorHidden s; cursorTimer := cursorTimer s;
     preloadCache := preloadCache s;
     requestsInFlight := requestsInFlight s |}.

Definition set_cursorHidden (v : bool) (s : State) : State :=
  {| slidesSource := slidesSource s; allowTransition := allowTransition s;
     trackPosition := trackPosition s; currentIndex := currentIndex s;
     containerWidth := containerWidth s; dragOffset := dragOffset s;
     isAnimating := isAnimating s; isPointerDown := isPointerDown s;
     isDragging := isDragging s; pointerId := pointerId s;
     dragStartX := dragStartX s; isModalOpen := isModalOpen s;
     isStartingSession := isStartingSession s; modalError := modalError s;
     cursorHidden := v; cursorTimer := cursorTimer s;
     preloadCache := preloadCache s;
     requestsInFlight := requestsInFlight s |}.

Definition set_cursorTimer (v : bool) (s : State) : State :=
  {| slidesSource := slidesSource s; allowTransition := allowTransition s;
     trackPosition := trackPosition s; currentIndex := currentIndex s;
     containerWidth := containerWidth s; dragOffset := dragOffset s;
     isAnimating := isAnimating s; isPointerDown := isPointerDown s;
     isDragging := isDragging s; pointerId := pointerId s;
     dragStartX := dragStartX s; isModalOpen := isModalOpen s;
     isStartingSession := isStartingSession s; modalError := modalError s;
     cursorHidden := cursorHidden s; cursorTimer := v;
     preloadCache := preloadCache s;
     requestsInFlight := requestsInFlight s |}.

Definition set_preloadCache (v : list string) (s : State) : State :=
  {| slidesSource := slidesSource s; allowTransition := allowTransition s;
     trackPosition := trackPosition s; currentIndex := currentIndex s;
     containerWidth := containerWidth s; dragOffset := dragOffset s;
     isAnimating := isAnimating s; isPointerDown := isPointerDown s;
     isDragging := isDragging s; pointerId := pointerId s;
     dragStartX := dragStartX s; isModalOpen := isModalOpen s;
     isStartingSession := isStartingSession s; modalError := modalError s;
     cursorHidden := cursorHidden s; cursorTimer := cursorTimer s;
     preloadCache := v; requestsInFlight := requestsInFlight s |}.

Definition set_requestsInFlight (v : nat) (s : State) : State :=
  {| slidesSource := slidesSource s; allowTransition := allowTransition s;
     trackPosition := trackPosition s; currentIndex := currentIndex s;
     containerWidth := containerWidth s; dragOffset := dragOffset s;
     isAnimating := isAnimating s; isPointerDown := isPointerDown s;
     isDragging := isDragging s; pointerId := pointerId s;
     dragStartX := dragStartX s; isModalOpen := isModalOpen s;
     isStartingSession := isStartingSession s; modalError := modalError s;
     cursorHidden := cursorHidden s; cursorTimer := cursorTimer s;
     preloadCache := preloadCache s; requestsInFlight := v |}.

(** ** Derived values (the component's [computed] properties) *)

Definition hasRealSlides (s : State) : bool :=
  (0 <? Z.of_nat (List.length (slidesSource s))).

(** The copy of [id] into [originalId] made by the source is not kept: it
    adds no information to a slide. *)
Definition slides (s : State) : list Slide :=
  if hasRealSlides s then slidesSource s else [placeholderSlide].

Definition totalSlides (s : State) : Z := Z.of_nat (List.length (slides s)).

(** Array indexing: an index outside the array reads [undefined]. *)
Definition slide_at (l : list Slide) (idx : Z) : option Slide :=
  if idx <? 0 then None else nth_error l (Z.to_nat idx).

Definition Qltb (x y : Q) : bool := negb (Qle_bool y x).

(** [Math.min(160, width * 0.25 || 160)]: a product equal to zero is falsy
    and gives way to 160. *)
Definition thresholdFor (width : Z) : Q :=
  let quarter := (inject_Z width * (1 # 4))%Q in
  Qmin (inject_Z 160)
       (if Qeq_bool quarter (inject_Z 0) then inject_Z 160 else quarter).

Definition pointerThreshold (s : State) : Q := thresholdFor (containerWidth s).

(** ** Calls and requests a handler makes *)

Inductive Call : Type :=
| CallGoNext
| CallGoPrev
| CallOpenModal
| FetchSessionStart          (* POST {apiBaseUrl}/session/start *)
| RouterPush (name : string) (* router.push({ name }) *)
| ImageRequest (src : string) (* new Image().src = src *).

Definition Call_eqb (a b : Call) : bool :=
  match a, b with
  | CallGoNext, CallGoNext => true
  | CallGoPrev, CallGoPrev => true
  | CallOpenModal, CallOpenModal => true
  | FetchSessionStart, FetchSessionStart => true
  | RouterPush x, RouterPush y => String.eqb x y
  | ImageRequest x, ImageRequest y => String.eqb x y
  | _, _ => false
  end.

Definition calls (c : Call) (log : list Call) : nat :=
  List.length (filter (Call_eqb c) log).

(** ** The handler monad: state passing with a log of calls *)

Definition M (A : Type) : Type := State -> A * State * list Call.

Definition ret {A : Type} (a : A) : M A := fun s => (a, s, []).

Definition bind {A B : Type} (m : M A) (k : A -> M B) : M B :=
  fun s =>
    let '(a, s1, l1) := m s in
    let '(b, s2, l2) := k a s1 in
    (b, s2, l1 ++ l2).

Definition gets {A : Type} (f : State -> A) : M A := fun s => (f s, s, []).
Definition modify (f : State -> State) : M unit := fun s => (tt, f s, []).
Definition emit (c : Call) : M unit := fun s => (tt, s, [c]).

(** [if (c) return] in front of the rest of a function body. *)
Definition return_if (c : State -> bool) (rest : M unit) : M unit :=
  fun s => if c s then ret tt s else rest s.

Declare Scope handler_scope.
Delimit Scope handler_scope with handler.
Notation "x <- m ;; k" := (bind m (fun x => k))
  (at level 61, m at next level, right associativity) : handler_scope.
Notation "m ;; k" := (bind m (fun _ => k))
  (at level 61, right associativity) : handler_scope.
Notation "f <~ v" := (modify (f v)) (at level 60) : handler_scope.
Open Scope handler_scope.

Definition state_of {A : Type} (r : A * State * list Call) : State := snd (fst r).
Definition log_of {A : Type} (r : A * State * list Call) : list Call := snd r.
Definition value_of {A : Type} (r : A * State * list Call) : A := fst (fst r).

(** ** Cursor idle timer and modal *)

Definition resetCursorTimer : M unit :=
  set_cursorHidden <~ false ;;
  set_cursorTimer <~ false ;;
  return_if isModalOpen (
  set_cursorTimer <~ true).

Definition openModal : M unit :=
  emit CallOpenModal ;;
  return_if isModalOpen (
  set_cursorTimer <~ false ;;
  set_cursorHidden <~ false ;;
  set_modalError <~ "" ;;
  set_isModalOpen <~ true).

Definition closeModal : M unit :=
  return_if isStartingSession (
  set_modalError <~ "" ;;
  set_isModalOpen <~ false ;;
  resetCursorTimer).

(** ** Session start *)

(** What [response.json()] yields: a rejection on a malformed body, else an
    object whose [message], when it has one, is a string. *)
Inductive Body : Type :=
| BodyMalformed
| BodyJson (message : option string).

(** A thrown value: an [Error] with its message, or anything else. *)
Inductive Thrown : Type :=
| ThrownError (message : string)
| ThrownOther.

(** How the [fetch] settles: rejected (network or transport failure), or
    fulfilled with a response whose [ok] flag is true exactly for a 2xx
    status. *)
Inductive FetchOutcome : Type :=
| Rejected (error : Thrown)
| Responded (ok : bool) (body : Body).

Definition fallbackMessage : string :=
  "Failed to start the photo session. Please try again.".
Definition unexpectedMessage : string :=
  "Unexpected error starting session.".

(** [a || b] on strings: the empty string is falsy. *)
Definition str_or (a b : string) : string :=
  if String.eqb a "" then b else a.

(** [payload?.message] after [response.json().catch(() => ({}))]. *)
Definition payload_message (b : Body) : string :=
  match b with
  | BodyJson (Some m) => m
  | _ => ""
  end.

(** The part of [confirmStart] that runs at the call, up to the [await]. *)
Definition confirmStart : M unit :=
  return_if isStartingSession (
  set_modalError <~ "" ;;
  set_isStartingSession <~ true ;;
  emit FetchSessionStart ;;
  modify (fun s => set_requestsInFlight (S (requestsInFlight s)) s)).

(** The value thrown inside the [try] block once the request has settled,
    if any. *)
Definition confirmStart_thrown (o : FetchOutcome) : option Thrown :=
  match o with
  | Rejected error => Some error
  | Responded ok body =>
      if negb ok
      then Some (ThrownError (str_or (payload_message body) fallbackMessage))
      else None
  end.

(** The continuation of [confirmStart] after the [await]: the rest of the
    [try] block, the [catch] and the [finally]. *)
Definition confirmStart_settled (o : FetchOutcome) : M unit :=
  match confirmStart_thrown o with
  | None =>
      set_isModalOpen <~ false ;;
      emit (RouterPush "photo-session")
  | Some error =>
      set_modalError <~
        match error with
        | ThrownError m => str_or m unexpectedMessage
        | ThrownOther => unexpectedMessage
        end
  end ;;
  set_isStartingSession <~ false ;;
  modify (fun s => set_requestsInFlight (Nat.pred (requestsInFlight s)) s).

(** ** Navigation *)

Definition goNext : M unit :=
  emit CallGoNext ;;
  return_if (fun s => negb (hasRealSlides s) || (totalSlides s <=? 1)) (
  return_if isAnimating (
  return_if (fun s => totalSlides s - 1 <=? currentIndex s) (
  set_allowTransition <~ true ;;
  set_dragOffset <~ 0 ;;
  set_isAnimating <~ true ;;
  modify (fun s => set_currentIndex (currentIndex s + 1) s) ;;
  modify (fun s => set_trackPosition (currentIndex s) s)))).

Definition goPrev : M unit :=
  emit CallGoPrev ;;
  return_if (fun s => negb (hasRealSlides s) || (totalSlides s <=? 1)) (
  return_if isAnimating (
  return_if (fun s => currentIndex s <=? 0) (
  set_allowTransition <~ true ;;
  set_dragOffset <~ 0 ;;
  set_isAnimating <~ true ;;
  modify (fun s => set_currentIndex (currentIndex s - 1) s) ;;
  modify (fun s => set_trackPosition (currentIndex s) s)))).

Definition finishTransitionIfNeeded : M unit :=
  return_if (fun s => negb (isAnimating s)) (
  single <- gets (fun s => negb (hasRealSlides s) || (totalSlides s <=? 1)) ;;
  if single
  then set_isAnimating <~ false
  else set_isAnimating <~ false).

(** ** Pointer gestures *)

(** [if (c) { body }] followed by the rest of the function. *)
Definition when (c : State -> bool) (body : M unit) : M unit :=
  fun s => if c s then body s else ret tt s.

Definition resetDragState : M unit :=
  set_dragOffset <~ 0 ;;
  set_isDragging <~ false ;;
  set_isPointerDown <~ false ;;
  set_pointerId <~ None.

Definition handlePointerDown (eventPointerId clientX : Z) : M unit :=
  return_if isModalOpen (
  resetCursorTimer ;;
  set_isPointerDown <~ true ;;
  set_pointerId <~ Some eventPointerId ;;
  set_dragStartX <~ clientX ;;
  set_dragOffset <~ 0 ;;
  set_isDragging <~ false ;;
  set_allowTransition <~ false).

Definition handlePointerMove (clientX : Z) : M unit :=
  return_if (fun s => negb (isPointerDown s) || isModalOpen s) (
  start <- gets dragStartX ;;
  let deltaX := clientX - start in
  when (fun s => negb (isDragging s) && (20 <? Z.abs deltaX)) (
    set_isDragging <~ true ;;
    set_isAnimating <~ false) ;;
  when isDragging (
    set_dragOffset <~ deltaX)).

Definition triggerNavigationForDrag (deltaX : Z) : M bool :=
  single <- gets (fun s => negb (hasRealSlides s) || (totalSlides s <=? 1)) ;;
  if single then
    set_allowTransition <~ true ;;
    set_dragOffset <~ 0 ;;
    ret false
  else
  short <- gets (fun s => Qltb (inject_Z (Z.abs deltaX)) (pointerThreshold s)) ;;
  if short then
    set_allowTransition <~ true ;;
    set_dragOffset <~ 0 ;;
    ret false
  else
  (if deltaX <? 0 then goNext else goPrev) ;;
  ret true.

Definition handlePointerUp (clientX : Z) : M unit :=
  return_if (fun s => negb (isPointerDown s)) (
  start <- gets dragStartX ;;
  let deltaX := clientX - start in
  dragging <- gets isDragging ;;
  navigated <- (if dragging then triggerNavigationForDrag deltaX else ret false) ;;
  tap <- gets (fun s => negb (isDragging s) && negb navigated && negb (isModalOpen s)) ;;
  (if tap then openModal
   else
     when (fun s => isDragging s && (Z.abs deltaX <=? 20) && negb navigated
                    && negb (isModalOpen s))
       openModal) ;;
  when (fun s => negb navigated && negb (isModalOpen s)) (
    set_allowTransition <~ true ;;
    set_dragOffset <~ 0) ;;
  resetDragState ;;
  resetCursorTimer).

Definition handlePointerCancel : M unit :=
  return_if (fun s => negb (isPointerDown s)) (
  set_allowTransition <~ true ;;
  set_dragOffset <~ 0 ;;
  resetDragState ;;
  resetCursorTimer).

Definition handlePointerLeave (clientX : Z) : M unit :=
  return_if (fun s => negb (isPointerDown s)) (
  handlePointerUp clientX).

(** ** Keyboard *)

Inductive Key : Type := ArrowRight | ArrowLeft | Enter | Escape | OtherKey.

Definition handleKeydown (repeat : bool) (key : Key) : M unit :=
  if repeat then ret tt else
  match key with
  | ArrowRight => when (fun s => negb (isModalOpen s)) goNext
  | ArrowLeft => when (fun s => negb (isModalOpen s)) goPrev
  | Enter =>
      open <- gets isModalOpen ;;
      if open then confirmStart else openModal
  | Escape => when isModalOpen closeModal
  | OtherKey => ret tt
  end.

(** ** Preload cache *)

(** The JavaScript [Set] of strings, as the list of its members in insertion
    order. *)
Module JsSet.
Definition t : Type := list string.
Definition has (c : t) (x : string) : bool := existsb (String.eqb x) c.
Definition add (x : string) (c : t) : t := if has c x then c else c ++ [x].
Definition delete (x : string) (c : t) : t :=
  filter (fun y => negb (String.eqb x y)) c.
Definition size (c : t) : Z := Z.of_nat (List.length c).
(** [values().next().value] *)
Definition first (c : t) : option string := hd_error c.
End JsSet.

Definition maxPreloadCacheSize : Z := 50.

Definition truthy (x : string) : bool := negb (String.eqb x "").

(** The body of [indices.forEach]. *)
Definition preloadIndex (idx : Z) : M unit :=
  slide <- gets (fun s => slide_at (slides s) idx) ;;
  match slide with
  | Some (ImageSlide _ src _) =>
      when (fun s => negb (JsSet.has (preloadCache s) src)) (
        emit (ImageRequest src) ;;
        modify (fun s => set_preloadCache (JsSet.add src (preloadCache s)) s) ;;
        when (fun s => maxPreloadCacheSize <? JsSet.size (preloadCache s)) (
          firstEntry <- gets (fun s => JsSet.first (preloadCache s)) ;;
          match firstEntry with
          | Some f =>
              if truthy f
              then modify (fun s => set_preloadCache (JsSet.delete f (preloadCache s)) s)
              else ret tt
          | None => ret tt
          end))
  | _ => ret tt
  end.

(** The watcher on [currentIndex] and [hasRealSlides]; [%] is the truncated
    remainder. *)
Definition preloadWatch : M unit :=
  return_if (fun s => negb (hasRealSlides s)) (
  total <- gets totalSlides ;;
  cur <- gets currentIndex ;;
  preloadIndex cur ;;
  preloadIndex (Z.rem (cur + 1) total) ;;
  preloadIndex (Z.rem (cur - 1 + total) total)).

(** ** Events of the component *)

Inductive Event : Type :=
| PointerDown (eventPointerId clientX : Z)
| PointerMove (clientX : Z)
| PointerUp (clientX : Z)
| PointerCancel
| PointerLeave (clientX : Z)
| KeyDown (repeat : bool) (key : Key)
| TransitionEnd
| Resize (clientWidth : N)
| ClickBatal
| ClickYa
| FetchSettled (o : FetchOutcome)
| CursorTimeout.

(** An event that the user interface raises, as opposed to the settling of
    the request. *)
Definition is_ui_event (e : Event) : bool :=
  match e with
  | FetchSettled _ => false
  | _ => true
  end.

(** The handler the template binds to each event.  The two buttons exist
    only while the modal is rendered and are disabled while the request is
    in flight; a request settles only if one is in flight; the timeout
    fires only if it is pending. *)
Definition dispatch (e : Event) : M unit :=
  match e with
  | PointerDown pid x => handlePointerDown pid x
  | PointerMove x => handlePointerMove x
  | PointerUp x => handlePointerUp x
  | PointerCancel => handlePointerCancel
  | PointerLeave x => handlePointerLeave x
  | KeyDown repeat key => handleKeydown repeat key
  | TransitionEnd => finishTransitionIfNeeded
  | Resize w => set_containerWidth <~ Z.of_N w
  | ClickBatal =>
      when (fun s => isModalOpen s && negb (isStartingSession s)) closeModal
  | ClickYa =>
      when (fun s => isModalOpen s && negb (isStartingSession s)) confirmStart
  | FetchSettled o =>
      when (fun s => negb (requestsInFlight s =? 0)%nat) (confirmStart_settled o)
  | CursorTimeout =>
      when cursorTimer (
        set_cursorHidden <~ true ;;
        set_cursorTimer <~ false)
  end.

(** One turn of the event loop: the handler, then the preload watcher if
    the handler changed [currentIndex]. *)
Definition step (e : Event) : M unit :=
  before <- gets currentIndex ;;
  dispatch e ;;
  when (fun s => negb (currentIndex s =? before)) preloadWatch.

Fixpoint run (es : list Event) : M unit :=
  match es with
  | [] => ret tt
  | e :: es' => step e ;; run es'
  end.

(** The state once the component is set up and mounted in a container of
    the given width, before the immediate run of the preload watcher. *)
Definition setupState (promoSlides : list Slide) (clientWidth : N) : State :=
  {| slidesSource := promoSlides;
     allowTransition := true;
     trackPosition := 0;
     currentIndex := 0;
     containerWidth := Z.of_N clientWidth;
     dragOffset := 0;
     isAnimating := false;
     isPointerDown := false;
     isDragging := false;
     pointerId := None;
     dragStartX := 0;
     isModalOpen := false;
     isStartingSession := false;
     modalError := "";
     cursorHidden := false;
     cursorTimer := true;
     preloadCache := [];
     requestsInFlight := 0 |}.

Definition mounted (promoSlides : list Slide) (clientWidth : N) : State :=
  state_of (preloadWatch (setupState promoSlides clientWidth)).

(** ** Sequences of navigation requests *)

Inductive Nav : Type := NavNext | NavPrev | NavTransitionEnd.

Definition navigate (n : Nav) : M unit :=
  match n with
  | NavNext => goNext
  | NavPrev => goPrev
  | NavTransitionEnd => finishTransitionIfNeeded
  end.

Fixpoint navigateAll (ns : list Nav) : M unit :=
  match ns with
  | [] => ret tt
  | n :: ns' => navigate n ;; navigateAll ns'
  end.

(** The current index designates a slide. *)
Definition index_in_range (s : State) : Prop :=
  0 <= currentIndex s <= totalSlides s - 1.

(** No pointer is down only with the drag state cleared. *)
Definition drag_idle (s : State) : Prop :=
  isPointerDown s = false ->
  dragOffset s = 0 /\ isDragging s = false /\ pointerId s = None.

(** The drag state after [resetDragState]. *)
Definition drag_reset (s : State) : Prop :=
  dragOffset s = 0 /\ isDragging s = false /\
  isPointerDown s = false /\ pointerId s = None.

(** ** Example data *)

Definition promo (name : string) : Slide :=
  ImageSlide name (String.append "/images/promos/" name) name.

Definition fivePromos : list Slide :=
  [promo "1.png"; promo "2.png"; promo "3.png"; promo "4.png"; promo "5.png"].

(** The cache after an insertion: the size test and the eviction that
    follow [preloadCache.add]. *)
Definition trimmed (c : JsSet.t) : JsSet.t :=
  if maxPreloadCacheSize <? JsSet.size c then
    match JsSet.first c with
    | Some f => if truthy f then JsSet.delete f c else c
    | None => c
    end
  else c.

(** [s'] differs from [s] in the preload cache at most. *)
Definition cache_only (s s' : State) : Prop :=
  s' = set_preloadCache (preloadCache s') s.

(** The requests in flight are the one the busy flag stands for. *)
Definition in_flight_matches_busy (s : State) : Prop :=
  requestsInFlight s = (if isStartingSession s then 1 else 0)%nat.

(** A gesture in progress on the carousel of five promos, 600 pixels wide:
    the pointer went down at x = 100. *)
Definition pressedState : State :=
  state_of (run [PointerDown 1 100] (mounted fivePromos 600)).

(** The same carousel with the modal open and the start request in
    flight. *)
Definition busyState : State :=
  state_of (run [KeyDown false Enter; KeyDown false Enter]
              (mounted fivePromos 600)).

Definition is_image_request (c : Call) : bool :=
  match c with
  | ImageRequest _ => true
  | _ => false
  end.

(** The open modal of the five-promo carousel, before any confirmation. *)
Definition modalState : State :=
  state_of (run [KeyDown false Enter] (mounted fivePromos 600)).

(** The horizontal displacement of a release at [x]. *)
Definition displacement (x : Z) (s : State) : Z := x - dragStartX s.

(** A gesture on a carousel only 40 pixels wide (navigation threshold 10):
    the pointer went down at x = 100 and moved to x = 115, short of the 20
    pixels that engage dragging. *)
Definition narrowTapState : State :=
  state_of (run [PointerDown 1 100; PointerMove 115] (mounted fivePromos 40)).

(** The same narrow carousel after a move to x = 130, which engages
    dragging, and back to x = 115. *)
Definition narrowDragState : State :=
  state_of (run [PointerDown 1 100; PointerMove 130; PointerMove 115]
              (mounted fivePromos 40)).

(** The 600-pixel carousel on its last slide, dragged 200 pixels to the
    left. *)
Definition lastSlideDragState : State :=
  state_of (run [KeyDown false ArrowRight; TransitionEnd;
                 KeyDown false ArrowRight; TransitionEnd;
                 KeyDown false ArrowRight; TransitionEnd;
                 KeyDown false ArrowRight; TransitionEnd;
                 PointerDown 1 300; PointerMove 100]
              (mounted fivePromos 600)).

(** The 600-pixel carousel on its third slide, dragged 200 pixels to the
    left. *)
Definition midSlideDragState : State :=
  state_of (run [KeyDown false ArrowRight; TransitionEnd;
                 KeyDown false ArrowRight; TransitionEnd;
                 PointerDown 1 300; PointerMove 100]
              (mounted fivePromos 600)).

(** The cache holds distinct, non-empty sources, at most 50 of them. *)
Definition cache_ok (c : JsSet.t) : Prop :=
  NoDup c /\ Forall (fun x => x <> "") c /\ JsSet.size c <= maxPreloadCacheSize.

(** Every image slide has a non-empty source, as the filter of the slide
    list builder ensures. *)
Definition sources_nonempty (l : list Slide) : Prop :=
  forall i src a, In (ImageSlide i src a) l -> src <> "".
(** A drag of 200 pixels to the left on the 600-pixel carousel, during which
    the Enter key opened the modal. *)
Definition modalOverDragState : State :=
  state_of (run [PointerDown 1 300; PointerMove 100; KeyDown false Enter]
              (mounted fivePromos 600)).

(** The events of a pointer gesture. *)
Definition is_pointer_event (e : Event) : bool :=
  match e with
  | PointerDown _ _ | PointerMove _ | PointerUp _ | PointerCancel
  | PointerLeave _ => true
  | _ => false
  end.

(** The track shows the slide the index designates. *)
Definition track_follows_index (s : State) : Prop :=
  trackPosition s = currentIndex s.

(** While the modal is open the cursor is shown and no hide timeout is
    pending. *)
Definition cursor_kept_while_modal (s : State) : Prop :=
  isModalOpen s = true -> cursorHidden s = false /\ cursorTimer s = false.

(** A carousel with a single promo. *)
Definition onePromo : list Slide := [promo "1.png"].

(** Pointer moves of a gesture, in order. *)
Fixpoint pointerMoves (xs : list Z) : M unit :=
  match xs with
  | [] => ret tt
  | x :: xs' => handlePointerMove x ;; pointerMoves xs'
  end.

(** [n] requests for the next (previous) slide, each followed by the end of
    its transition. *)
Fixpoint forward (n : nat) : list Nav :=
  match n with
  | O => []
  | S n' => NavNext :: NavTransitionEnd :: forward n'
  end.

Fixpoint backward (n : nat) : list Nav :=
  match n with
  | O => []
  | S n' => NavPrev :: NavTransitionEnd :: backward n'
  end.

Definition is_request (n : Nav) : bool :=
  match n with
  | NavTransitionEnd => false
  | _ => true
  end.

(** One attempt to start the session from the open modal: the Enter key,
    then the settling of the request. *)
Definition attempt (o : FetchOutcome) : list Event :=
  [KeyDown false Enter; FetchSettled o].

(** A settling that leaves the [try] block by a throw. *)
Definition is_failure (o : FetchOutcome) : bool :=
  match confirmStart_thrown o with
  | Some _ => true
  | None => false
  end.

(** ** The router *)

Record Route : Type := mkRoute {
  route_path : string;
  route_name : string;
  route_component : string
}.

Definition routes : list Route :=
  [ mkRoute "/" "home" "../pages/HomeScreen.vue";
    mkRoute "/photo-session" "photo-session" "../pages/PhotoSession.vue";
    mkRoute "/result" "result" "../pages/ResultDisplay.vue" ].

(** What the navigation guard does with a navigation. *)
Inductive GuardResult : Type := GuardNext.

(** [router.beforeEach]: both branches on the name of the route being left
    are empty, and [next()] is called. *)
Definition beforeEach (to from : string) : GuardResult :=
  let _ := if String.eqb from "photo-session" then tt else tt in
  let _ := if String.eqb from "result" then tt else tt in
  GuardNext.

(** [router.push({ name })] from the route named [from]: the path of the
    route of that name, if there is one and the guard lets it through. *)
Definition routerPush (name from : string) : option string :=
  match find (fun r => String.eqb (route_name r) name) routes with
  | Some r =>
      match beforeEach (route_name r) from with
      | GuardNext => Some (route_path r)
      end
  | None => None
  end.

(** The neighbours of the current slide, with wrap-around. *)
Definition nextIndex (s : State) : Z :=
  if currentIndex s =? totalSlides s - 1 then 0 else currentIndex s + 1.

Definition prevIndex (s : State) : Z :=
  if currentIndex s =? 0 then totalSlides s - 1 else currentIndex s - 1.

(** A call that is not a navigation of the router to another route than
    [photo-session]. *)
Definition push_to_session (c : Call) : bool :=
  match c with
  | RouterPush name => String.eqb name "photo-session"
  | _ => true
  end.

(** ** The slide list builder *)

(** What a module of the glob import holds: a URL string, or something
    that is not a string. *)
Inductive ModuleValue : Type :=
| UrlString (url : string)
| NotString.

(** [typeof url === 'string' && url] *)
Definition valid_entry (entry : string * ModuleValue) : bool :=
  match snd entry with
  | UrlString url => truthy url
  | NotString => false
  end.

(** The last element of [path.split('/')]: what follows the last slash. *)
Fixpoint lastSegment (acc path : string) : string :=
  match path with
  | EmptyString => acc
  | String c rest =>
      if Ascii.eqb c "/"%char
      then lastSegment "" rest
      else lastSegment (String.append acc (String c EmptyString)) rest
  end.

Definition filenameOf (path : string) : string := lastSegment "" path.

(** No slash occurs in the string. *)
Fixpoint slashless (a : string) : bool :=
  match a with
  | EmptyString => true
  | String c rest => negb (Ascii.eqb c "/"%char) && slashless rest
  end.

Section SlideListBuilder.

(** The comparison of two ids by [localeCompare] with numeric collation,
    and the label that the two regular expressions and [trim] derive from a
    file name, are left open. *)
Variable localeCompare : string -> string -> Z.
Variable labelOf : string -> string.

Definition entrySlide (entry : string * ModuleValue) : Slide :=
  let filename := filenameOf (fst entry) in
  ImageSlide filename
    (match snd entry with UrlString url => url | NotString => "" end)
    (String.append (labelOf filename) " promotion").

(** [Array.prototype.sort] with a comparator: a stable sort, here by
    insertion. *)
Fixpoint insertSlide (sl : Slide) (l : list Slide) : list Slide :=
  match l with
  | [] => [sl]
  | y :: l' =>
      if 0 <? localeCompare (slide_id sl) (slide_id y)
      then y :: insertSlide sl l'
      else sl :: l
  end.

Definition sortSlides (l : list Slide) : list Slide :=
  fold_right insertSlide [] l.

Definition promoSlides (modules : list (string * ModuleValue)) : list Slide :=
  sortSlides (map entrySlide (filter valid_entry modules)).

End SlideListBuilder.

(** ** The rendered track *)

(** A slide of the track: the slide, the id it is keyed by, and the id of
    the slide it stands for. *)
Record TrackSlide : Type := mkTrackSlide {
  track_id : string;
  track_originalId : string;
  track_slide : Slide
}.

Definition trackSlides (s : State) : list TrackSlide :=
  let plain := map (fun sl => mkTrackSlide (slide_id sl) (slide_id sl) sl) in
  if negb (hasRealSlides s) then plain (slides s)
  else if totalSlides s =? 0 then []
  else if totalSlides s =? 1 then
    match slides s with
    | single :: _ =>
        [mkTrackSlide (String.append (slide_id single) "-single")
           (slide_id single) single]
    | [] => []
    end
  else plain (slides s).

(** [slides[currentIndex] ?? slides[0]] *)
Definition activeSlide (s : State) : option Slide :=
  match slide_at (slides s) (currentIndex s) with
  | Some sl => Some sl
  | None => slide_at (slides s) 0
  end.

Definition activeSlideId (s : State) : string :=
  match activeSlide s with
  | Some sl => slide_id sl
  | None => "placeholder"
  end.

(** The [is-active] class of a slide of the track. *)
Definition is_active (s : State) (t : TrackSlide) : bool :=
  String.eqb (track_originalId t) (activeSlideId s).

(** * Properties *)

(** ** Reasoning about handlers *)

(** Unfolds the monad, so that a handler applied to a state computes. *)
Ltac unfold_monad :=
  unfold state_of, log_of, value_of, bind, ret, gets, modify, emit,
    return_if, when in *.

Ltac step_if :=
  match goal with
  | |- context [if ?c then _ else _] => destruct c eqn:?
  | H : context [if ?c then _ else _] |- _ => destruct c eqn:?
  end.

Lemma totalSlides_pos (s : State) : 1 <= totalSlides s.
Proof.
  unfold totalSlides, slides, hasRealSlides.
  destruct (slidesSource s); cbn; lia.
Qed.

(** Booleans of the handlers' tests, as propositions. *)
Ltac bool_to_prop :=
  rewrite ?orb_true_iff, ?orb_false_iff, ?andb_true_iff, ?andb_false_iff,
    ?negb_true_iff, ?negb_false_iff, ?Z.leb_le, ?Z.leb_gt, ?Z.ltb_lt,
    ?Z.ltb_ge, ?Z.eqb_eq, ?Z.eqb_neq in *.

(** The slide count depends on the slide list only. *)
Lemma totalSlides_ext (s s' : State) :
  slidesSource s' = slidesSource s -> totalSlides s' = totalSlides s.
Proof.
  unfold totalSlides, slides, hasRealSlides. intros ->. reflexivity.
Qed.

(** [goNext], [goPrev] and [finishTransitionIfNeeded] as state
    transformers. *)
Lemma goNext_run (s : State) :
  goNext s =
  (tt,
   if negb (hasRealSlides s) || (totalSlides s <=? 1) then s
   else if isAnimating s then s
   else if totalSlides s - 1 <=? currentIndex s then s
   else set_trackPosition (currentIndex s + 1)
          (set_currentIndex (currentIndex s + 1)
            (set_isAnimating true (set_dragOffset 0 (set_allowTransition true s)))),
   [CallGoNext]).
Proof.
  unfold goNext. unfold_monad. cbn.
  repeat step_if; reflexivity.
Qed.

Lemma goPrev_run (s : State) :
  goPrev s =
  (tt,
   if negb (hasRealSlides s) || (totalSlides s <=? 1) then s
   else if isAnimating s then s
   else if currentIndex s <=? 0 then s
   else set_trackPosition (currentIndex s - 1)
          (set_currentIndex (currentIndex s - 1)
            (set_isAnimating true (set_dragOffset 0 (set_allowTransition true s)))),
   [CallGoPrev]).
Proof.
  unfold goPrev. unfold_monad. cbn.
  repeat step_if; reflexivity.
Qed.

Lemma finishTransitionIfNeeded_run (s : State) :
  finishTransitionIfNeeded s =
  (tt, if isAnimating s then set_isAnimating false s else s, []).
Proof.
  unfold finishTransitionIfNeeded. unfold_monad.
  destruct (isAnimating s); cbn; [step_if|]; reflexivity.
Qed.

Lemma navigate_slidesSource (n : Nav) (s : State) :
  slidesSource (state_of (navigate n s)) = slidesSource s.
Proof.
  destruct n; cbn [navigate];
    rewrite ?goNext_run, ?goPrev_run, ?finishTransitionIfNeeded_run;
    unfold state_of; cbn [fst snd]; repeat step_if; reflexivity.
Qed.

Lemma navigate_in_range (n : Nav) (s : State) :
  index_in_range s -> index_in_range (state_of (navigate n s)).
Proof.
  unfold index_in_range. intros H.
  rewrite (totalSlides_ext s) by apply navigate_slidesSource.
  destruct n; cbn [navigate];
    rewrite ?goNext_run, ?goPrev_run, ?finishTransitionIfNeeded_run;
    unfold state_of; cbn [fst snd]; repeat step_if; bool_to_prop;
    cbn; lia.
Qed.

Lemma navigateAll_cons (n : Nav) (ns : list Nav) (s : State) :
  state_of (navigateAll (n :: ns) s) =
  state_of (navigateAll ns (state_of (navigate n s))).
Proof.
  cbn [navigateAll]. unfold state_of, bind.
  destruct (navigate n s) as [[u s1] l1]. cbn [fst snd].
  destruct (navigateAll ns s1) as [[u2 s2] l2]. reflexivity.
Qed.

Lemma navigateAll_in_range (ns : list Nav) :
  forall s, index_in_range s -> index_in_range (state_of (navigateAll ns s)).
Proof.
  induction ns as [|n ns IH]; intros s H.
  - exact H.
  - rewrite navigateAll_cons. apply IH, navigate_in_range, H.
Qed.

(** ** Navigation is a bounded, non-wrapping walk *)

(** C1.  From a state whose index designates a slide, every sequence of
    [goNext] and [goPrev] calls (with transition ends in between, in any
    order) leaves the index within [0, count - 1].  [goNext] at the last
    index and [goPrev] at index 0 leave the whole state unchanged, and a call
    moves the index by at most one position in its own direction, so the
    walk never wraps to the opposite end. *)
Theorem navigation_index_bounded (s : State) :
  index_in_range s ->
  (forall ns, index_in_range (state_of (navigateAll ns s))) /\
  (currentIndex s = totalSlides s - 1 -> state_of (goNext s) = s) /\
  (currentIndex s = 0 -> state_of (goPrev s) = s) /\
  (currentIndex (state_of (goNext s)) = currentIndex s \/
   currentIndex (state_of (goNext s)) = currentIndex s + 1) /\
  (currentIndex (state_of (goPrev s)) = currentIndex s \/
   currentIndex (state_of (goPrev s)) = currentIndex s - 1).
Proof.
  intros H. split; [|split; [|split; [|split]]].
  - intros ns. apply navigateAll_in_range, H.
  - intros E. rewrite goNext_run. unfold state_of; cbn [fst snd].
    repeat step_if; bool_to_prop; try reflexivity; lia.
  - intros E. rewrite goPrev_run. unfold state_of; cbn [fst snd].
    repeat step_if; bool_to_prop; try reflexivity; lia.
  - rewrite goNext_run. unfold state_of; cbn [fst snd].
    repeat step_if; cbn; auto.
  - rewrite goPrev_run. unfold state_of; cbn [fst snd].
    repeat step_if; cbn; auto.
Qed.

Lemma navigation_index_bounded_witness :
  let s := mounted fivePromos 600 in
  index_in_range s /\
  (forall ns, index_in_range (state_of (navigateAll ns s))).
Proof.
  assert (H : index_in_range (mounted fivePromos 600))
    by (unfold index_in_range; split; apply Z.leb_le; vm_compute; reflexivity).
  split; [exact H | exact (proj1 (navigation_index_bounded _ H))].
Defined.

(** ** The preload watcher touches the cache only *)

Lemma preloadIndex_run (idx : Z) (s : State) :
  preloadIndex idx s =
  match slide_at (slides s) idx with
  | Some (ImageSlide _ src _) =>
      if JsSet.has (preloadCache s) src then (tt, s, [])
      else (tt, set_preloadCache (trimmed (JsSet.add src (preloadCache s))) s,
            [ImageRequest src])
  | _ => (tt, s, [])
  end.
Proof.
  unfold preloadIndex, trimmed. unfold_monad.
  destruct (slide_at (slides s) idx) as [[i src a|i m]|]; try reflexivity.
  destruct (JsSet.has (preloadCache s) src); cbn; [reflexivity|].
  destruct (maxPreloadCacheSize <? _); [|reflexivity].
  destruct (JsSet.first _) as [f|]; [|reflexivity].
  destruct (truthy f); reflexivity.
Qed.

Lemma preloadIndex_frame (idx : Z) (s : State) :
  state_of (preloadIndex idx s) =
  set_preloadCache (preloadCache (state_of (preloadIndex idx s))) s.
Proof.
  rewrite preloadIndex_run.
  destruct (slide_at (slides s) idx) as [[i src a|i m]|];
    try destruct (JsSet.has (preloadCache s) src);
    destruct s; reflexivity.
Qed.

Lemma cache_only_refl (s : State) : cache_only s s.
Proof. destruct s; reflexivity. Qed.

Lemma cache_only_trans (s1 s2 s3 : State) :
  cache_only s1 s2 -> cache_only s2 s3 -> cache_only s1 s3.
Proof.
  unfold cache_only. intros H12 H23. rewrite H23, H12. reflexivity.
Qed.

Lemma bind_state {A B : Type} (m : M A) (k : A -> M B) (s : State) :
  state_of (bind m k s) = state_of (k (value_of (m s)) (state_of (m s))).
Proof.
  unfold bind, state_of, value_of.
  destruct (m s) as [[a s1] l1]. cbn [fst snd].
  destruct (k a s1) as [[b s2] l2]. reflexivity.
Qed.

Lemma bind_log {A B : Type} (m : M A) (k : A -> M B) (s : State) :
  log_of (bind m k s) =
  log_of (m s) ++ log_of (k (value_of (m s)) (state_of (m s))).
Proof.
  unfold bind, state_of, value_of, log_of.
  destruct (m s) as [[a s1] l1]. cbn [fst snd].
  destruct (k a s1) as [[b s2] l2]. reflexivity.
Qed.

Lemma preloadWatch_cache_only (s : State) :
  cache_only s (state_of (preloadWatch s)).
Proof.
  unfold preloadWatch, return_if.
  destruct (negb (hasRealSlides s)); [apply cache_only_refl|].
  rewrite !bind_state. cbn [gets value_of state_of fst snd].
  eapply cache_only_trans; [|apply preloadIndex_frame].
  eapply cache_only_trans; [|apply preloadIndex_frame].
  apply preloadIndex_frame.
Qed.

Lemma step_state (e : Event) (s : State) :
  state_of (step e s) =
  let s1 := state_of (dispatch e s) in
  if currentIndex s1 =? currentIndex s then s1 else state_of (preloadWatch s1).
Proof.
  unfold step, when. rewrite !bind_state.
  cbn [gets value_of state_of fst snd].
  destruct (currentIndex _ =? currentIndex s); reflexivity.
Qed.

Lemma step_cache_only (e : Event) (s : State) :
  cache_only (state_of (dispatch e s)) (state_of (step e s)).
Proof.
  rewrite step_state. cbv zeta.
  destruct (_ =? _); [apply cache_only_refl | apply preloadWatch_cache_only].
Qed.

Lemma run_cons (e : Event) (es : list Event) (s : State) :
  state_of (run (e :: es) s) = state_of (run es (state_of (step e s))).
Proof. cbn [run]. rewrite bind_state. reflexivity. Qed.

(** ** The drag state *)

(** Evaluation of a handler on a state given by its fields: the monad, the
    handlers, the assignments and the projections are unfolded, nothing
    else. *)
Ltac eval_step :=
  cbv beta iota zeta delta
    [bind ret gets modify emit return_if when state_of log_of value_of fst snd
     app
     handlePointerDown handlePointerMove handlePointerUp handlePointerCancel
     handlePointerLeave handleKeydown finishTransitionIfNeeded
     triggerNavigationForDrag closeModal confirmStart confirmStart_settled
     openModal resetDragState resetCursorTimer goNext goPrev dispatch
     set_allowTransition set_trackPosition set_currentIndex set_containerWidth
     set_dragOffset set_isAnimating set_isPointerDown set_isDragging
     set_pointerId set_dragStartX set_isModalOpen set_isStartingSession
     set_modalError set_cursorHidden set_cursorTimer set_preloadCache
     set_requestsInFlight
     slidesSource allowTransition trackPosition currentIndex containerWidth
     dragOffset isAnimating isPointerDown isDragging pointerId dragStartX
     isModalOpen isStartingSession modalError cursorHidden cursorTimer
     preloadCache requestsInFlight
     hasRealSlides slides totalSlides pointerThreshold];
  cbn [negb andb orb].

Ltac eval_step_in H :=
  cbv beta iota zeta delta
    [state_of log_of value_of fst snd
     slidesSource allowTransition trackPosition currentIndex containerWidth
     dragOffset isAnimating isPointerDown isDragging pointerId dragStartX
     isModalOpen isStartingSession modalError cursorHidden cursorTimer
     preloadCache requestsInFlight
     hasRealSlides slides totalSlides pointerThreshold] in H;
  cbn [negb andb orb] in H.

(** Splits on the test of the first conditional of the goal: on a boolean
    field if the test has one, else on a comparison of the test. *)
Ltac split_test :=
  match goal with
  | |- context [if ?c then _ else _] =>
      match c with
      | context [?b] =>
          is_var b; match type of b with bool => destruct b end
      | context [?a <=? ?b] => destruct (a <=? b) eqn:?
      | context [?a <? ?b] => destruct (a <? b) eqn:?
      | context [Qltb ?a ?b] => destruct (Qltb a b) eqn:?
      | _ => destruct c eqn:?
      end
  | |- context [match ?x with Some _ => _ | None => _ end] =>
      destruct x eqn:?
  end.

(** Evaluates the handler application [t] of the goal down to its results,
    one goal per path through the handler; the rest of the goal is left
    alone until a result is reached. *)
Ltac eval_handler t :=
  pattern t;
  match goal with
  | |- ?P _ =>
      let Q := fresh "Q" in
      set (Q := P); eval_step; repeat (split_test; eval_step);
      subst Q; cbv beta
  end;
  eval_step.

Ltac eval_hyps :=
  repeat match goal with
         | H : context [mkState] |- _ => progress eval_step_in H
         end.

Lemma dispatch_drag_idle (e : Event) (s : State) :
  drag_idle s -> drag_idle (state_of (dispatch e s)).
Proof.
  unfold drag_idle. intros H.
  destruct s; eval_hyps.
  destruct e as [pid x|x|x|  |x|rep key| |w| | |o| ];
    try destruct key;
    match goal with
    | |- context [isPointerDown ?t] => eval_handler t
    end; intuition congruence.
Qed.

Lemma run_drag_idle (es : list Event) :
  forall s, drag_idle s -> drag_idle (state_of (run es s)).
Proof.
  induction es as [|e es IH]; intros s H; [exact H|].
  rewrite run_cons. apply IH.
  rewrite (step_cache_only e s). apply (dispatch_drag_idle e s H).
Qed.

Lemma dispatch_in_flight (e : Event) (s : State) :
  in_flight_matches_busy s ->
  in_flight_matches_busy (state_of (dispatch e s)).
Proof.
  unfold in_flight_matches_busy. intros H.
  destruct s; eval_hyps.
  destruct e as [pid x|x|x|  |x|rep key| |w| | |o| ];
    try destruct key;
    match goal with
    | |- context [requestsInFlight ?t] => eval_handler t
    end;
    try (destruct isStartingSession0);
    try (rewrite Nat.eqb_eq in * ); try (rewrite Nat.eqb_neq in * );
    (congruence || lia).
Qed.

Lemma run_in_flight (es : list Event) :
  forall s,
    in_flight_matches_busy s -> in_flight_matches_busy (state_of (run es s)).
Proof.
  induction es as [|e es IH]; intros s H; [exact H|].
  rewrite run_cons. apply IH.
  rewrite (step_cache_only e s). apply (dispatch_in_flight e s H).
Qed.

Lemma release_resets_drag (x : Z) (s : State) :
  drag_idle s ->
  drag_reset (state_of (handlePointerUp x s)) /\
  drag_reset (state_of (handlePointerCancel s)) /\
  drag_reset (state_of (handlePointerLeave x s)).
Proof.
  unfold drag_idle, drag_reset. intros H.
  destruct s; eval_hyps.
  repeat split;
    match goal with
    | |- context [state_of ?t] => eval_handler t
    end; intuition congruence.
Qed.

(** C10.  In every state the component reaches (any event sequence from a
    state with a clear drag state, such as the mounted one), no pointer is
    down only with the drag state cleared, and once a pointer-up,
    pointer-cancel or pointer-leave handler has run the drag offset is 0, the
    dragging and pointer-down flags are false and the stored pointer id is
    cleared, whatever the handler decided. *)
Theorem drag_state_reset_after_release (s0 : State) (es : list Event) (x : Z) :
  drag_idle s0 ->
  let s := state_of (run es s0) in
  drag_idle s /\
  drag_reset (state_of (handlePointerUp x s)) /\
  drag_reset (state_of (handlePointerCancel s)) /\
  drag_reset (state_of (handlePointerLeave x s)).
Proof.
  intros H0 s.
  assert (H : drag_idle s) by (apply run_drag_idle, H0).
  split; [exact H | apply release_resets_drag, H].
Qed.

Lemma drag_state_reset_after_release_witness :
  let s := state_of (run [PointerDown 1 300; PointerMove 100]
                       (mounted fivePromos 600)) in
  drag_idle s /\
  drag_reset (state_of (handlePointerUp 100 s)) /\
  drag_reset (state_of (handlePointerCancel s)) /\
  drag_reset (state_of (handlePointerLeave 100 s)).
Proof.
  apply (drag_state_reset_after_release (mounted fivePromos 600)
           [PointerDown 1 300; PointerMove 100] 100).
  intros _. repeat split; reflexivity.
Defined.

(** ** Pointer-cancel and pointer-leave *)

Lemma handlePointerLeave_is_up (x : Z) (s : State) :
  handlePointerLeave x s = handlePointerUp x s.
Proof.
  unfold handlePointerLeave, handlePointerUp, return_if.
  destruct (negb (isPointerDown s)); reflexivity.
Qed.

(** C4, as the code has it.  With a gesture in progress, pointer-cancel
    re-enables the transition, clears the drag offset, the drag flags and the
    pointer id, calls nothing (no [goNext], [goPrev] or [openModal]) and
    leaves the index and the modal as they were.  Pointer-leave is not an
    abort: it does exactly what pointer-up does at the same position. *)
Theorem pointer_cancel_aborts_gesture (s : State) :
  isPointerDown s = true ->
  let r := handlePointerCancel s in
  allowTransition (state_of r) = true /\
  drag_reset (state_of r) /\
  log_of r = [] /\
  currentIndex (state_of r) = currentIndex s /\
  isModalOpen (state_of r) = isModalOpen s /\
  (forall x, handlePointerLeave x s = handlePointerUp x s).
Proof.
  intros H r. subst r. unfold drag_reset.
  split; [|split; [|split; [|split; [|split]]]];
    try (intros x; apply handlePointerLeave_is_up).
  all: destruct s; eval_hyps; subst;
    match goal with
    | |- context [handlePointerCancel ?s] =>
        eval_handler (handlePointerCancel s)
    end; repeat split; reflexivity.
Qed.

Lemma pointer_cancel_aborts_gesture_witness :
  let r := handlePointerCancel pressedState in
  allowTransition (state_of r) = true /\
  drag_reset (state_of r) /\
  log_of r = [] /\
  currentIndex (state_of r) = currentIndex pressedState /\
  isModalOpen (state_of r) = isModalOpen pressedState /\
  (forall x, handlePointerLeave x pressedState = handlePointerUp x pressedState).
Proof.
  apply (pointer_cancel_aborts_gesture pressedState). reflexivity.
Defined.

(** C4 as stated fails for pointer-leave: with the pointer down at x = 100
    and not moved, a pointer-leave at x = 100 calls [openModal] and the modal
    opens. *)
Lemma pointer_leave_opens_modal :
  isPointerDown pressedState = true /\
  isModalOpen pressedState = false /\
  log_of (handlePointerLeave 100 pressedState) = [CallOpenModal] /\
  isModalOpen (state_of (handlePointerLeave 100 pressedState)) = true.
Proof. repeat split; reflexivity. Qed.

(** ** The busy guard of the modal *)

Lemma dispatch_while_busy (e : Event) (s : State) :
  is_ui_event e = true ->
  isStartingSession s = true ->
  isModalOpen s = true ->
  let r := dispatch e s in
  isStartingSession (state_of r) = true /\
  isModalOpen (state_of r) = true /\
  modalError (state_of r) = modalError s /\
  requestsInFlight (state_of r) = requestsInFlight s /\
  calls FetchSessionStart (log_of r) = 0%nat /\
  (forall name, calls (RouterPush name) (log_of r) = 0%nat).
Proof.
  intros He Hb Ho r. subst r.
  destruct s; eval_hyps; subst.
  destruct e as [pid x|x|x|  |x|rep key| |w| | |o| ];
    try discriminate He; try destruct key;
    match goal with
    | |- context [state_of ?t] => eval_handler t
    end; repeat split; reflexivity.
Qed.

Lemma calls_app (c : Call) (l1 l2 : list Call) :
  calls c (l1 ++ l2) = (calls c l1 + calls c l2)%nat.
Proof. unfold calls. rewrite filter_app, length_app. reflexivity. Qed.

Lemma calls_image_requests (c : Call) (l : list Call) :
  forallb is_image_request l = true ->
  is_image_request c = false ->
  calls c l = 0%nat.
Proof.
  unfold calls. intros Hl Hc.
  induction l as [|d l IH]; [reflexivity|].
  cbn in Hl. apply andb_true_iff in Hl. destruct Hl as [Hd Hl].
  cbn [filter]. destruct d; try discriminate Hd.
  destruct c; try discriminate Hc; cbn [Call_eqb]; apply IH, Hl.
Qed.

Lemma preloadIndex_log (idx : Z) (s : State) :
  forallb is_image_request (log_of (preloadIndex idx s)) = true.
Proof.
  rewrite preloadIndex_run.
  destruct (slide_at (slides s) idx) as [[i src a|i m]|];
    try destruct (JsSet.has (preloadCache s) src); reflexivity.
Qed.

Lemma preloadWatch_log (s : State) :
  forallb is_image_request (log_of (preloadWatch s)) = true.
Proof.
  unfold preloadWatch, return_if.
  destruct (negb (hasRealSlides s)); [reflexivity|].
  rewrite !bind_log. cbn [gets log_of value_of state_of fst snd app].
  rewrite !forallb_app, !preloadIndex_log. reflexivity.
Qed.

Lemma step_log (e : Event) (s : State) :
  log_of (step e s) =
  let s1 := state_of (dispatch e s) in
  log_of (dispatch e s) ++
  (if currentIndex s1 =? currentIndex s then [] else log_of (preloadWatch s1)).
Proof.
  unfold step, when. rewrite !bind_log, ?bind_state.
  cbn [gets value_of state_of log_of fst snd app].
  destruct (currentIndex _ =? currentIndex s); reflexivity.
Qed.

Lemma run_log_cons (e : Event) (es : list Event) (s : State) :
  log_of (run (e :: es) s) =
  log_of (step e s) ++ log_of (run es (state_of (step e s))).
Proof. cbn [run]. rewrite bind_log. reflexivity. Qed.

Lemma step_calls (c : Call) (e : Event) (s : State) :
  is_image_request c = false ->
  calls c (log_of (step e s)) = calls c (log_of (dispatch e s)).
Proof.
  intros Hc. rewrite step_log. cbv zeta. rewrite calls_app.
  destruct (_ =? _); [cbn; lia|].
  rewrite (calls_image_requests c _ (preloadWatch_log _) Hc). lia.
Qed.

Lemma run_while_busy (es : list Event) :
  forall s,
    forallb is_ui_event es = true ->
    isStartingSession s = true ->
    isModalOpen s = true ->
    let r := run es s in
    isStartingSession (state_of r) = true /\
    isModalOpen (state_of r) = true /\
    modalError (state_of r) = modalError s /\
    requestsInFlight (state_of r) = requestsInFlight s /\
    calls FetchSessionStart (log_of r) = 0%nat /\
    (forall name, calls (RouterPush name) (log_of r) = 0%nat).
Proof.
  induction es as [|e es IH]; intros s Hes Hb Ho.
  - cbn. repeat split; auto.
  - cbn [forallb] in Hes. apply andb_true_iff in Hes. destruct Hes as [He Hes].
    destruct (dispatch_while_busy e s He Hb Ho) as (D1 & D2 & D3 & D4 & D5 & D6).
    cbv zeta. rewrite run_cons, run_log_cons.
    assert (C : cache_only (state_of (dispatch e s)) (state_of (step e s)))
      by apply step_cache_only.
    assert (S1 : isStartingSession (state_of (step e s)) = true)
      by (rewrite C; exact D1).
    assert (S2 : isModalOpen (state_of (step e s)) = true)
      by (rewrite C; exact D2).
    assert (S3 : modalError (state_of (step e s)) = modalError s)
      by (rewrite C; exact D3).
    assert (S4 : requestsInFlight (state_of (step e s)) = requestsInFlight s)
      by (rewrite C; exact D4).
    destruct (IH _ Hes S1 S2) as (R1 & R2 & R3 & R4 & R5 & R6).
    repeat split; try assumption; try congruence.
    + rewrite calls_app, step_calls, D5, R5; reflexivity.
    + intros name. rewrite calls_app, step_calls, D6, R6; reflexivity.
Qed.

(** C8.  While the start request is in flight, [closeModal] does nothing:
    the call, the Escape key and the cancel button each leave every field as
    it was.  Hence an open modal stays open, with the same error text, under
    every sequence of user-interface events, until the request settles. *)
Theorem closeModal_blocked_while_busy (s : State) :
  isStartingSession s = true ->
  closeModal s = (tt, s, []) /\
  (forall repeat, handleKeydown repeat Escape s = (tt, s, [])) /\
  dispatch ClickBatal s = (tt, s, []) /\
  (isModalOpen s = true ->
   forall es, forallb is_ui_event es = true ->
     isModalOpen (state_of (run es s)) = true /\
     isStartingSession (state_of (run es s)) = true /\
     modalError (state_of (run es s)) = modalError s).
Proof.
  intros Hb. split; [|split; [|split]].
  - unfold closeModal, return_if. rewrite Hb. reflexivity.
  - intros [|]; cbn [handleKeydown]; [reflexivity|].
    unfold when, closeModal, return_if. rewrite Hb.
    destruct (isModalOpen s); reflexivity.
  - cbn [dispatch]. unfold when. rewrite Hb.
    rewrite andb_false_r. reflexivity.
  - intros Ho es Hes.
    destruct (run_while_busy es s Hes Hb Ho) as (R1 & R2 & R3 & _).
    auto.
Qed.

Lemma closeModal_blocked_while_busy_witness :
  closeModal busyState = (tt, busyState, []) /\
  (forall repeat, handleKeydown repeat Escape busyState = (tt, busyState, [])) /\
  dispatch ClickBatal busyState = (tt, busyState, []) /\
  (isModalOpen busyState = true ->
   forall es, forallb is_ui_event es = true ->
     isModalOpen (state_of (run es busyState)) = true /\
     isStartingSession (state_of (run es busyState)) = true /\
     modalError (state_of (run es busyState)) = modalError busyState).
Proof.
  apply (closeModal_blocked_while_busy busyState). reflexivity.
Defined.

(** C6.  While the busy flag is set, a confirm invocation (the call itself,
    the confirm button, the Enter key on the open modal) leaves every field
    as it was and issues no request.  Hence in every state the component
    reaches from one where the requests in flight are those the busy flag
    stands for, at most one start request is in flight. *)
Theorem confirm_ignored_while_busy :
  (forall s, isStartingSession s = true ->
     confirmStart s = (tt, s, []) /\
     dispatch ClickYa s = (tt, s, []) /\
     (isModalOpen s = true -> handleKeydown false Enter s = (tt, s, []))) /\
  (forall s0 es, in_flight_matches_busy s0 ->
     (requestsInFlight (state_of (run es s0)) <= 1)%nat).
Proof.
  split.
  - intros s Hb. split; [|split].
    + unfold confirmStart, return_if. rewrite Hb. reflexivity.
    + cbn [dispatch]. unfold when. rewrite Hb, andb_false_r. reflexivity.
    + intros Ho. cbn [handleKeydown]. unfold bind, gets. rewrite Ho.
      unfold confirmStart, return_if. rewrite Hb. reflexivity.
  - intros s0 es H0.
    pose proof (run_in_flight es s0 H0) as H.
    unfold in_flight_matches_busy in H. rewrite H.
    destruct (isStartingSession _); lia.
Qed.

Lemma confirm_ignored_while_busy_witness :
  confirmStart busyState = (tt, busyState, []) /\
  (requestsInFlight
     (state_of (run [KeyDown false Enter; ClickYa; KeyDown false Enter]
                  (mounted fivePromos 600))) <= 1)%nat.
Proof.
  destruct confirm_ignored_while_busy as [A B]. split.
  - apply (proj1 (A busyState eq_refl)).
  - apply (B (mounted fivePromos 600)). reflexivity.
Defined.

(** ** Outcome of the session-start request *)

Lemma confirmStart_fresh (s : State) :
  isStartingSession s = false ->
  confirmStart s =
  (tt,
   set_requestsInFlight (S (requestsInFlight s))
     (set_isStartingSession true (set_modalError "" s)),
   [FetchSessionStart]).
Proof.
  intros H. unfold confirmStart, return_if. rewrite H. reflexivity.
Qed.

Lemma str_or_nonempty (a b : string) : b <> "" -> str_or a b <> "".
Proof.
  unfold str_or. intros Hb.
  destruct (String.eqb_spec a ""); assumption.
Qed.

Lemma str_or_absorb (a b c : string) :
  b <> "" -> str_or (str_or a b) c = str_or a b.
Proof.
  intros Hb. unfold str_or at 1.
  destruct (String.eqb_spec (str_or a b) "") as [E|E]; [|reflexivity].
  exfalso. exact (str_or_nonempty a b Hb E).
Qed.

(** C5, as the code has it.  A confirmation on the open modal issues one
    request; whatever the user does while it is in flight issues no other
    and leaves the modal open.  When the request settles the busy flag is
    cleared and
    - on a 2xx response the modal closes and exactly one navigation to
      [photo-session] is requested;
    - on another response the modal stays open and shows the [message] of
      the body when it has a non-empty one, else the fallback text;
    - on a rejected request the modal stays open and shows the message of
      the thrown error when it is non-empty, else the text for unexpected
      errors.
    The text shown on a failure is never empty. *)
Theorem session_start_outcome (s : State) (es : list Event) (o : FetchOutcome) :
  isStartingSession s = false ->
  isModalOpen s = true ->
  forallb is_ui_event es = true ->
  let r0 := confirmStart s in
  let r1 := run es (state_of r0) in
  let r := confirmStart_settled o (state_of r1) in
  log_of r0 = [FetchSessionStart] /\
  calls FetchSessionStart (log_of r1) = 0%nat /\
  (forall name, calls (RouterPush name) (log_of r1) = 0%nat) /\
  isStartingSession (state_of r) = false /\
  match o with
  | Responded true _ =>
      isModalOpen (state_of r) = false /\
      log_of r = [RouterPush "photo-session"]
  | Responded false body =>
      isModalOpen (state_of r) = true /\ log_of r = [] /\
      modalError (state_of r) <> "" /\
      modalError (state_of r) =
        match body with
        | BodyJson (Some m) => if String.eqb m "" then fallbackMessage else m
        | _ => fallbackMessage
        end
  | Rejected error =>
      isModalOpen (state_of r) = true /\ log_of r = [] /\
      modalError (state_of r) <> "" /\
      modalError (state_of r) =
        match error with
        | ThrownError m => if String.eqb m "" then unexpectedMessage else m
        | ThrownOther => unexpectedMessage
        end
  end.
Proof.
  intros Hb Ho Hes r0 r1 r. subst r r1 r0.
  rewrite (confirmStart_fresh s Hb).
  set (s1 := set_requestsInFlight _ _).
  assert (B1 : isStartingSession s1 = true) by reflexivity.
  assert (O1 : isModalOpen s1 = true) by exact Ho.
  destruct (run_while_busy es (state_of (tt, s1, [FetchSessionStart])) Hes B1 O1)
    as (R1 & R2 & _ & _ & R5 & R6).
  change (state_of (tt, s1, [FetchSessionStart])) with s1 in *.
  split; [reflexivity|]. split; [exact R5|]. split; [exact R6|].
  destruct (state_of (run es s1)) eqn:E2; eval_hyps; subst.
  assert (F : fallbackMessage <> "") by discriminate.
  assert (U : unexpectedMessage <> "") by discriminate.
  unfold confirmStart_settled.
  destruct o as [[m|]|[|] [|[m|]]];
    cbn [confirmStart_thrown negb payload_message]; eval_step;
    repeat split; try reflexivity;
    try (apply str_or_nonempty; assumption); try assumption;
    try (rewrite str_or_absorb by assumption; apply str_or_nonempty;
         assumption).
  rewrite str_or_absorb by assumption. reflexivity.
Qed.

Lemma session_start_outcome_witness :
  let r0 := confirmStart modalState in
  let r1 := run [KeyDown false Escape; ClickBatal] (state_of r0) in
  let r := confirmStart_settled
             (Responded false (BodyJson (Some "Camera offline")))
             (state_of r1) in
  isModalOpen (state_of r) = true /\
  modalError (state_of r) = "Camera offline".
Proof.
  pose proof (session_start_outcome modalState
                [KeyDown false Escape; ClickBatal]
                (Responded false (BodyJson (Some "Camera offline")))
                eq_refl eq_refl eq_refl) as H.
  cbv zeta in H. destruct H as (_ & _ & _ & _ & H1 & _ & _ & H4).
  split; [exact H1 | exact H4].
Defined.

(** C5 as stated fails in two places.  A request that fails in transport
    shows the message of the rejection (here the browser's "Failed to
    fetch"), which is neither a message from the server nor one of the two
    fallback texts; and a body whose [message] is present but empty shows the
    fallback text, not the field. *)
Lemma session_start_shows_transport_error :
  let busy := state_of (confirmStart modalState) in
  let r := confirmStart_settled (Rejected (ThrownError "Failed to fetch")) busy in
  let r' := confirmStart_settled (Responded false (BodyJson (Some ""))) busy in
  modalError (state_of r) = "Failed to fetch" /\
  modalError (state_of r) <> fallbackMessage /\
  modalError (state_of r) <> unexpectedMessage /\
  modalError (state_of r') = fallbackMessage /\
  modalError (state_of r') <> "".
Proof. repeat split; try reflexivity; discriminate. Qed.

(** ** The navigation threshold *)

(** The threshold test in integers: four times the distance against the
    lesser of 640 and the width, where a width of 0 counts as 640. *)
Lemma Qltb_thresholdFor (a w : Z) :
  Qltb (inject_Z a) (thresholdFor w) =
  (4 * a <? Z.min 640 (if w =? 0 then 640 else w)).
Proof.
  unfold Qltb, thresholdFor, Qle_bool, Qeq_bool, Qmin, GenericMinMax.gmin,
    Qcompare.
  cbn [Qnum Qden Qmult inject_Z Pos.mul].
  destruct (Z.eqb_spec (w * 1 * 1) (0 * 4)) as [E|E],
           (Z.eqb_spec w 0) as [E'|E']; try lia.
  - change (160 * QDen (inject_Z 160) ?= Qnum (inject_Z 160) * 1) with Eq.
    cbv iota. unfold inject_Z. cbn [Qnum Qden].
    destruct (Z.leb_spec (160 * 1) (a * 1)),
             (Z.ltb_spec (4 * a) (Z.min 640 640)); try reflexivity; lia.
  - unfold inject_Z, Qmult. cbn [Qnum Qden Pos.mul].
    destruct (Z.compare_spec (160 * 4) (w * 1 * 1)); cbn [Qnum Qden];
      match goal with
      | |- negb (?x <=? ?y) = (?u <? ?v) =>
          destruct (Z.leb_spec x y), (Z.ltb_spec u v)
      end; try reflexivity; lia.
Qed.
(** ** Release of the pointer: tap or navigation *)

(** Closes a path of a handler that the hypotheses exclude. *)
Ltac absurd_path :=
  solve [ congruence
        | bool_to_prop; lia
        | bool_to_prop; intuition (congruence || lia) ].

(** C3, as the code has it.  With a gesture in progress, a release at most
    20 pixels from the start opens the modal, by exactly one call of
    [openModal] if it was closed and by none if it was open, and calls
    neither [goNext] nor [goPrev], provided that dragging was not engaged, or
    there is at most one slide, or the distance is below the navigation
    threshold; the last holds whenever the container is wider than 80
    pixels or its width is 0. *)
Theorem tap_release_opens_modal (s : State) (x : Z) :
  isPointerDown s = true ->
  Z.abs (displacement x s) <= 20 ->
  isDragging s = false \/ totalSlides s <= 1 \/
  Qltb (inject_Z (Z.abs (displacement x s))) (pointerThreshold s) = true \/
  containerWidth s = 0 \/ 80 < containerWidth s ->
  let r := handlePointerUp x s in
  isModalOpen (state_of r) = true /\
  log_of r = (if isModalOpen s then [] else [CallOpenModal]) /\
  currentIndex (state_of r) = currentIndex s.
Proof.
  intros Hd Ha Hc r. subst r.
  assert (Hc' : isDragging s = false \/ totalSlides s <= 1 \/
                Qltb (inject_Z (Z.abs (displacement x s))) (pointerThreshold s)
                = true).
  { destruct Hc as [H|[H|[H|H]]]; auto.
    right; right. unfold pointerThreshold. rewrite Qltb_thresholdFor.
    apply Z.ltb_lt. destruct (Z.eqb_spec (containerWidth s) 0); lia. }
  clear Hc. unfold displacement in *.
  destruct s; eval_hyps; subst.
  destruct Hc' as [H|[H|H]]; subst;
    match goal with
    | |- context [handlePointerUp ?a ?b] => eval_handler (handlePointerUp a b)
    end;
    try (repeat split; reflexivity); absurd_path.
Qed.

Lemma tap_release_opens_modal_witness :
  let r := handlePointerUp 110 pressedState in
  isModalOpen (state_of r) = true /\
  log_of r = (if isModalOpen pressedState then [] else [CallOpenModal]) /\
  currentIndex (state_of r) = currentIndex pressedState.
Proof.
  apply (tap_release_opens_modal pressedState 110).
  - reflexivity.
  - apply Z.leb_le. reflexivity.
  - left. reflexivity.
Defined.

(** C3 as stated fails on a narrow container once dragging is engaged: at
    width 40 the navigation threshold is 10, and a release 15 pixels from
    the start, after a move that went 30 pixels away, calls [goPrev] and
    leaves the modal closed. *)
Lemma small_drag_release_navigates :
  isPointerDown narrowDragState = true /\
  isDragging narrowDragState = true /\
  Z.abs (displacement 115 narrowDragState) = 15 /\
  log_of (handlePointerUp 115 narrowDragState) = [CallGoPrev] /\
  isModalOpen (state_of (handlePointerUp 115 narrowDragState)) = false.
Proof. repeat split; reflexivity. Qed.

(** Uses a test whose value is among the hypotheses. *)
Ltac use_known :=
  match goal with
  | H : ?c = ?v |- context [if ?d then _ else _] =>
      lazymatch c with
      | true => fail
      | false => fail
      | _ => idtac
      end;
      match d with
      | context [c] => rewrite H
      end
  end.

(** C2, as the code has it.  With a gesture in progress and the modal
    closed, on a carousel of at least two slides, take a release whose
    distance from the start is at least the threshold.  If dragging is
    engaged, the release calls [goNext] once (leftward) or [goPrev] once
    (rightward), calls nothing else and leaves the modal closed; the index
    moves one step in that direction unless a transition is in progress or
    the index is already at that end, where it stays.  If dragging is not
    engaged, the release is a tap: it calls [openModal] once and nothing
    else, the modal opens and the index stays.  On a container of
    non-negative width the displacement of such a release is not zero. *)
Theorem drag_release_navigates (s : State) (x : Z) :
  isPointerDown s = true ->
  isModalOpen s = false ->
  2 <= totalSlides s ->
  Qltb (inject_Z (Z.abs (displacement x s))) (pointerThreshold s) = false ->
  let r := handlePointerUp x s in
  (isDragging s = true ->
   log_of r = [if displacement x s <? 0 then CallGoNext else CallGoPrev] /\
   isModalOpen (state_of r) = false /\
   currentIndex (state_of r) =
     (if isAnimating s then currentIndex s
      else if displacement x s <? 0
           then (if totalSlides s - 1 <=? currentIndex s
                 then currentIndex s else currentIndex s + 1)
           else (if currentIndex s <=? 0
                 then currentIndex s else currentIndex s - 1))) /\
  (isDragging s = false ->
   log_of r = [CallOpenModal] /\
   isModalOpen (state_of r) = true /\
   currentIndex (state_of r) = currentIndex s) /\
  (0 <= containerWidth s -> displacement x s <> 0).
Proof.
  intros Hd Ho Ht Hq r. subst r.
  assert (Hz : 0 <= containerWidth s -> displacement x s <> 0).
  { intros Hw E. unfold pointerThreshold in Hq.
    rewrite Qltb_thresholdFor, E in Hq. apply Z.ltb_ge in Hq.
    destruct (Z.eqb_spec (containerWidth s) 0); cbn in Hq; lia. }
  assert (Hr : hasRealSlides s = true).
  { unfold totalSlides, slides in Ht.
    destruct (hasRealSlides s); [reflexivity | cbn in Ht; lia]. }
  assert (Hs : (totalSlides s <=? 1) = false) by (apply Z.leb_gt; lia).
  split; [|split; [|exact Hz]]; clear Hz Ht; intros Hg;
    unfold displacement in *; unfold totalSlides, slides in Hs;
    rewrite Hr in Hs;
    destruct s; eval_hyps; subst;
    match goal with
    | |- context [handlePointerUp ?a ?b] =>
        pattern (handlePointerUp a b);
        match goal with
        | |- ?P _ =>
            let Q := fresh "Q" in
            set (Q := P); eval_step;
            repeat (first [use_known | split_test]; eval_step);
            subst Q; cbv beta
        end; eval_step
    end;
    repeat (use_known; eval_step); repeat split; reflexivity.
Qed.

Lemma drag_release_navigates_witness :
  (let r := handlePointerUp 100 midSlideDragState in
   log_of r = [CallGoNext] /\
   isModalOpen (state_of r) = false /\
   currentIndex (state_of r) = 3) /\
  (let r := handlePointerUp 115 narrowTapState in
   log_of r = [CallOpenModal] /\
   isModalOpen (state_of r) = true /\
   currentIndex (state_of r) = 0).
Proof.
  split.
  - assert (Ht : 2 <= totalSlides midSlideDragState)
      by (apply Z.leb_le; reflexivity).
    destruct (drag_release_navigates midSlideDragState 100
                eq_refl eq_refl Ht eq_refl) as (H & _ & _).
    exact (H eq_refl).
  - assert (Ht : 2 <= totalSlides narrowTapState)
      by (apply Z.leb_le; reflexivity).
    destruct (drag_release_navigates narrowTapState 115
                eq_refl eq_refl Ht eq_refl) as (_ & H & _).
    exact (H eq_refl).
Defined.

(** C2 as stated fails in two places.  On a container 40 pixels wide the
    threshold is 10: a release 15 pixels from the start reaches it, but
    dragging was never engaged, so the release is a tap and opens the modal
    without navigating.  And on the last of five slides a release 200
    pixels to the left (threshold 150) calls [goNext], which leaves the
    index where it is. *)
Lemma threshold_release_without_step :
  (isPointerDown narrowTapState = true /\
   2 <= totalSlides narrowTapState /\
   Qltb (inject_Z (Z.abs (displacement 115 narrowTapState)))
        (pointerThreshold narrowTapState) = false /\
   log_of (handlePointerUp 115 narrowTapState) = [CallOpenModal] /\
   isModalOpen (state_of (handlePointerUp 115 narrowTapState)) = true /\
   currentIndex (state_of (handlePointerUp 115 narrowTapState)) =
     currentIndex narrowTapState) /\
  (isPointerDown lastSlideDragState = true /\
   displacement 100 lastSlideDragState = -200 /\
   Qltb (inject_Z (Z.abs (displacement 100 lastSlideDragState)))
        (pointerThreshold lastSlideDragState) = false /\
   currentIndex lastSlideDragState = 4 /\
   log_of (handlePointerUp 100 lastSlideDragState) = [CallGoNext] /\
   currentIndex (state_of (handlePointerUp 100 lastSlideDragState)) = 4).
Proof.
  repeat split; try reflexivity.
  apply Z.leb_le. reflexivity.
Qed.

(** ** The preload cache *)

Lemma JsSet_has_In (c : JsSet.t) (x : string) :
  JsSet.has c x = true <-> In x c.
Proof.
  unfold JsSet.has. rewrite existsb_exists. split.
  - intros (y & Hy & E). apply String.eqb_eq in E. subst y. exact Hy.
  - intros H. exists x. split; [exact H | apply String.eqb_refl].
Qed.

Lemma JsSet_delete_head (f : string) (c : list string) :
  ~ In f c -> JsSet.delete f (f :: c) = c.
Proof.
  intros H. unfold JsSet.delete. cbn [filter].
  rewrite String.eqb_refl. cbn [negb].
  induction c as [|y c IH]; [reflexivity|].
  cbn [filter]. destruct (String.eqb_spec f y) as [->|Hy].
  - exfalso. apply H. left. reflexivity.
  - cbn [negb]. f_equal. apply IH. intros Hin. apply H. right. exact Hin.
Qed.

(** An insertion of a new source: appended while there is room; at 50
    members the first one leaves. *)
Lemma trimmed_add (x : string) (c : JsSet.t) :
  cache_ok c -> x <> "" -> ~ In x c ->
  cache_ok (trimmed (JsSet.add x c)) /\
  (JsSet.size c < maxPreloadCacheSize -> trimmed (JsSet.add x c) = c ++ [x]) /\
  (JsSet.size c = maxPreloadCacheSize -> trimmed (JsSet.add x c) = tl c ++ [x]).
Proof.
  intros (Hnd & Hne & Hsz) Hx Hin.
  assert (Hadd : JsSet.add x c = c ++ [x]).
  { unfold JsSet.add. destruct (JsSet.has c x) eqn:E; [|reflexivity].
    apply JsSet_has_In in E. contradiction. }
  rewrite Hadd. unfold trimmed, JsSet.size, maxPreloadCacheSize in *.
  rewrite length_app. cbn [List.length].
  assert (Hnd' : NoDup (c ++ [x])).
  { apply NoDup_app; [exact Hnd | repeat constructor; intros [] |].
    intros y Hy [E|[]]. subst y. contradiction. }
  assert (Hne' : Forall (fun y => y <> "") (c ++ [x])).
  { apply Forall_app. split; [exact Hne | repeat constructor; exact Hx]. }
  destruct (Z.ltb_spec 50 (Z.of_nat (List.length c + 1))) as [Hfull|Hroom].
  - destruct c as [|f c']; [cbn in Hfull; lia|].
    cbn [app JsSet.first hd_error tl].
    assert (Hf : truthy f = true).
    { unfold truthy. inversion Hne as [|? ? Hf' ?]; subst.
      destruct (String.eqb_spec f ""); [contradiction | reflexivity]. }
    rewrite Hf.
    assert (Hnf : ~ In f (c' ++ [x])).
    { cbn [app] in Hnd'. inversion Hnd'; assumption. }
    rewrite (JsSet_delete_head f (c' ++ [x]) Hnf).
    split; [|split].
    + split; [|split].
      * cbn [app] in Hnd'. inversion Hnd'; assumption.
      * cbn [app] in Hne'. inversion Hne'; assumption.
      * unfold JsSet.size, maxPreloadCacheSize.
        rewrite length_app. cbn [List.length] in *. lia.
    + intros Hlt. cbn [List.length] in *. lia.
    + reflexivity.
  - split; [|split].
    + split; [exact Hnd' | split; [exact Hne'|]].
      unfold JsSet.size, maxPreloadCacheSize.
      rewrite length_app. cbn [List.length]. lia.
    + reflexivity.
    + intros E. lia.
Qed.

Lemma slides_sources_nonempty (s : State) :
  sources_nonempty (slidesSource s) -> sources_nonempty (slides s).
Proof.
  unfold slides. destruct (hasRealSlides s); [auto|].
  intros _ i src a [E|[]]. discriminate E.
Qed.

Lemma slide_at_In (l : list Slide) (idx : Z) (sl : Slide) :
  slide_at l idx = Some sl -> In sl l.
Proof.
  unfold slide_at. destruct (idx <? 0); [discriminate|].
  apply nth_error_In.
Qed.

Lemma preloadIndex_cache_ok (idx : Z) (s : State) :
  sources_nonempty (slidesSource s) ->
  cache_ok (preloadCache s) ->
  cache_ok (preloadCache (state_of (preloadIndex idx s))).
Proof.
  intros Hs Hc. rewrite preloadIndex_run.
  destruct (slide_at (slides s) idx) as [[i src a|i m]|] eqn:E;
    try exact Hc.
  destruct (JsSet.has (preloadCache s) src) eqn:Hh; [exact Hc|].
  cbn [state_of fst snd set_preloadCache preloadCache].
  apply trimmed_add; [exact Hc | |].
  - apply (slides_sources_nonempty s Hs i src a), (slide_at_In _ idx), E.
  - intros Hin. apply JsSet_has_In in Hin. congruence.
Qed.

Lemma cache_only_slidesSource (s s' : State) :
  cache_only s s' -> slidesSource s' = slidesSource s.
Proof. intros ->. reflexivity. Qed.

Lemma preloadIndex_keeps (idx : Z) (s : State) :
  sources_nonempty (slidesSource s) /\ cache_ok (preloadCache s) ->
  sources_nonempty (slidesSource (state_of (preloadIndex idx s))) /\
  cache_ok (preloadCache (state_of (preloadIndex idx s))).
Proof.
  intros [Hs Hc]. split.
  - rewrite (cache_only_slidesSource s _ (preloadIndex_frame idx s)).
    exact Hs.
  - apply preloadIndex_cache_ok; assumption.
Qed.

Lemma preloadWatch_cache_ok (s : State) :
  sources_nonempty (slidesSource s) ->
  cache_ok (preloadCache s) ->
  cache_ok (preloadCache (state_of (preloadWatch s))).
Proof.
  intros Hs Hc. unfold preloadWatch, return_if.
  destruct (negb (hasRealSlides s)); [exact Hc|].
  rewrite !bind_state. cbn [gets value_of state_of fst snd].
  apply preloadIndex_keeps, preloadIndex_keeps, preloadIndex_keeps.
  split; assumption.
Qed.

(** No handler touches the slide list or the cache. *)
Lemma dispatch_keeps_cache (e : Event) (s : State) :
  slidesSource (state_of (dispatch e s)) = slidesSource s /\
  preloadCache (state_of (dispatch e s)) = preloadCache s.
Proof.
  destruct s.
  destruct e as [pid x|x|x|  |x|rep key| |w| | |o| ];
    try destruct key;
    match goal with
    | |- context [state_of ?t] => eval_handler t
    end; split; reflexivity.
Qed.

Lemma step_cache_ok (e : Event) (s : State) :
  sources_nonempty (slidesSource s) ->
  cache_ok (preloadCache s) ->
  sources_nonempty (slidesSource (state_of (step e s))) /\
  cache_ok (preloadCache (state_of (step e s))).
Proof.
  intros Hs Hc.
  destruct (dispatch_keeps_cache e s) as [D1 D2].
  split.
  - rewrite (cache_only_slidesSource _ _ (step_cache_only e s)), D1. exact Hs.
  - rewrite step_state. cbv zeta. destruct (_ =? _).
    + rewrite D2. exact Hc.
    + apply preloadWatch_cache_ok; rewrite ?D1, ?D2; assumption.
Qed.

Lemma run_cache_ok (es : list Event) :
  forall s,
    sources_nonempty (slidesSource s) ->
    cache_ok (preloadCache s) ->
    cache_ok (preloadCache (state_of (run es s))).
Proof.
  induction es as [|e es IH]; intros s Hs Hc; [exact Hc|].
  rewrite run_cons.
  destruct (step_cache_ok e s Hs Hc) as [Hs' Hc']. apply IH; assumption.
Qed.

(** C7.  With a slide list whose sources are non-empty and a cache of at
    most 50 distinct non-empty sources (the empty cache at start-up), the
    cache holds at most 50 entries after every run of the preload watcher
    and in every state the component reaches.  Preloading a slide whose
    source is new to a cache of exactly 50 requests the image, appends the
    source and drops the entry inserted earliest; preloading a slide whose
    source is in the cache requests nothing and changes nothing. *)
Theorem preload_cache_bounded (s : State) :
  sources_nonempty (slidesSource s) ->
  cache_ok (preloadCache s) ->
  JsSet.size (preloadCache (state_of (preloadWatch s))) <= 50 /\
  (forall es, JsSet.size (preloadCache (state_of (run es s))) <= 50) /\
  (forall idx i src a,
     slide_at (slides s) idx = Some (ImageSlide i src a) ->
     ~ In src (preloadCache s) ->
     JsSet.size (preloadCache s) = 50 ->
     preloadCache (state_of (preloadIndex idx s)) =
       tl (preloadCache s) ++ [src] /\
     log_of (preloadIndex idx s) = [ImageRequest src]) /\
  (forall idx i src a,
     slide_at (slides s) idx = Some (ImageSlide i src a) ->
     In src (preloadCache s) ->
     preloadIndex idx s = (tt, s, [])).
Proof.
  intros Hs Hc. split; [|split; [|split]].
  - apply (preloadWatch_cache_ok s Hs Hc).
  - intros es. apply (run_cache_ok es s Hs Hc).
  - intros idx i src a E Hin Hsz. rewrite preloadIndex_run, E.
    destruct (JsSet.has (preloadCache s) src) eqn:Hh.
    + apply JsSet_has_In in Hh. contradiction.
    + cbn [state_of log_of fst snd set_preloadCache preloadCache].
      split; [|reflexivity].
      apply trimmed_add; [exact Hc | | exact Hin | exact Hsz].
      apply (slides_sources_nonempty s Hs i src a), (slide_at_In _ idx), E.
  - intros idx i src a E Hin. rewrite preloadIndex_run, E.
    apply JsSet_has_In in Hin. rewrite Hin. reflexivity.
Qed.

Lemma preload_cache_bounded_witness :
  JsSet.size
    (preloadCache
       (state_of (run [KeyDown false ArrowRight; TransitionEnd;
                       KeyDown false ArrowRight]
                    (mounted fivePromos 600)))) <= 50.
Proof.
  apply (preload_cache_bounded (mounted fivePromos 600)).
  - intros i src a H. cbn in H.
    repeat (destruct H as [H|H]; [inversion H; discriminate|]).
    destruct H.
  - split; [|split].
    + cbn. repeat constructor; cbn; intuition discriminate.
    + cbn. repeat constructor; discriminate.
    + apply Z.leb_le. reflexivity.
Defined.

(** ** Navigation behind the open modal *)

(** C9 at the input where the code departs from it: the pointer went down
    and dragged 200 pixels to the left, the Enter key then opened the modal,
    and the release calls [goNext] and moves the index from 0 to 1 with the
    modal open. *)
Theorem release_navigates_behind_modal :
  isModalOpen modalOverDragState = true /\
  currentIndex modalOverDragState = 0 /\
  log_of (handlePointerUp 100 modalOverDragState) = [CallGoNext] /\
  currentIndex (state_of (handlePointerUp 100 modalOverDragState)) = 1 /\
  isModalOpen (state_of (handlePointerUp 100 modalOverDragState)) = true.
Proof. repeat split; reflexivity. Qed.

(** * Further properties of the component *)

(** Evaluates the handler of an arbitrary event, one goal per path. *)
Ltac eval_dispatch e :=
  destruct e as [?pid ?x|?x|?x|  |?x|?rep ?key| |?w| | |?o| ];
  try match goal with key : Key |- _ => destruct key end;
  match goal with
  | |- context [dispatch ?ev ?st] =>
      pattern (dispatch ev st);
      match goal with
      | |- ?P _ =>
          let Q := fresh "Q" in
          set (Q := P); eval_step;
          repeat (first [use_known | split_test]; eval_step);
          subst Q; cbv beta
      end; eval_step; repeat (use_known; eval_step)
  end.

(** ** The open modal makes the carousel inert to new gestures *)

Lemma dispatch_pointer_behind_modal (e : Event) (s : State) :
  is_pointer_event e = true ->
  isModalOpen s = true ->
  isPointerDown s = false ->
  dispatch e s = (tt, s, []).
Proof.
  intros He Ho Hd. destruct s; eval_hyps; subst.
  destruct e; try discriminate He; reflexivity.
Qed.

(** With the modal open and no pointer down, pointer events change nothing
    and call nothing, however many follow one another: a gesture that starts
    behind the modal never engages a drag, never navigates.  The arrow keys
    change nothing either. *)
Theorem modal_blocks_new_gestures (s : State) (es : list Event) :
  isModalOpen s = true ->
  isPointerDown s = false ->
  forallb is_pointer_event es = true ->
  run es s = (tt, s, []) /\
  (forall repeat, handleKeydown repeat ArrowRight s = (tt, s, [])) /\
  (forall repeat, handleKeydown repeat ArrowLeft s = (tt, s, [])).
Proof.
  intros Ho Hd Hes. split; [|split].
  - induction es as [|e es IH]; [reflexivity|].
    cbn [forallb] in Hes. apply andb_true_iff in Hes. destruct Hes as [He Hes].
    cbn [run]. unfold step, bind, gets, when.
    rewrite (dispatch_pointer_behind_modal e s He Ho Hd).
    rewrite Z.eqb_refl. cbn [negb ret]. rewrite (IH Hes). reflexivity.
  - intros [|]; cbn [handleKeydown]; [reflexivity|].
    unfold when. rewrite Ho. reflexivity.
  - intros [|]; cbn [handleKeydown]; [reflexivity|].
    unfold when. rewrite Ho. reflexivity.
Qed.

Lemma modal_blocks_new_gestures_witness :
  run [PointerDown 1 300; PointerMove 100; PointerUp 100; PointerLeave 100]
      modalState = (tt, modalState, []).
Proof.
  apply (modal_blocks_new_gestures modalState
           [PointerDown 1 300; PointerMove 100; PointerUp 100; PointerLeave 100]);
    reflexivity.
Defined.

(** ** Invariants of every event *)

Lemma dispatch_slidesSource (e : Event) (s : State) :
  slidesSource (state_of (dispatch e s)) = slidesSource s.
Proof. apply dispatch_keeps_cache. Qed.

Lemma step_slidesSource (e : Event) (s : State) :
  slidesSource (state_of (step e s)) = slidesSource s.
Proof.
  rewrite (cache_only_slidesSource _ _ (step_cache_only e s)).
  apply dispatch_slidesSource.
Qed.

Lemma dispatch_index_in_range (e : Event) (s : State) :
  index_in_range s /\ track_follows_index s ->
  index_in_range (state_of (dispatch e s)) /\
  track_follows_index (state_of (dispatch e s)).
Proof.
  unfold index_in_range, track_follows_index. intros H.
  destruct s; eval_hyps.
  eval_dispatch e; bool_to_prop; lia.
Qed.

(** Whatever the events, the index designates a slide and the track shows
    that slide: nothing, gestures and keys included, moves the index out of
    [0, count - 1] or the track away from the index. *)
Theorem index_in_range_always (s : State) (es : list Event) :
  index_in_range s ->
  track_follows_index s ->
  index_in_range (state_of (run es s)) /\
  track_follows_index (state_of (run es s)).
Proof.
  revert s. induction es as [|e es IH]; intros s Hi Ht; [split; assumption|].
  rewrite run_cons.
  destruct (dispatch_index_in_range e s (conj Hi Ht)) as [Di Dt].
  apply IH.
  - unfold index_in_range in *.
    rewrite (totalSlides_ext (state_of (dispatch e s)))
      by (rewrite step_slidesSource, dispatch_slidesSource; reflexivity).
    rewrite (step_cache_only e s). exact Di.
  - unfold track_follows_index in *. rewrite (step_cache_only e s). exact Dt.
Qed.

Lemma index_in_range_always_witness :
  let s := state_of (run [PointerDown 1 300; PointerMove 100; PointerUp 100;
                          KeyDown false ArrowLeft; KeyDown false ArrowLeft]
                       (mounted fivePromos 600)) in
  index_in_range s /\ track_follows_index s.
Proof.
  apply (index_in_range_always (mounted fivePromos 600)).
  - split; apply Z.leb_le; reflexivity.
  - reflexivity.
Defined.

(** ** A carousel of at most one slide *)

Lemma dispatch_single_index (e : Event) (s : State) :
  totalSlides s <= 1 ->
  currentIndex (state_of (dispatch e s)) = currentIndex s.
Proof.
  intros H. apply Z.leb_le in H.
  destruct s; eval_hyps.
  eval_dispatch e; try reflexivity; congruence.
Qed.

(** With no promo, or a single one, nothing navigates: the index stays
    where it is under every sequence of events, drags and arrow keys
    included, and the preload watcher never runs again. *)
Theorem single_slide_never_navigates (s : State) (es : list Event) :
  totalSlides s <= 1 ->
  currentIndex (state_of (run es s)) = currentIndex s /\
  forallb (fun c => negb (is_image_request c)) (log_of (run es s)) = true.
Proof.
  revert s. induction es as [|e es IH]; intros s H; [split; reflexivity|].
  rewrite run_cons, run_log_cons.
  pose proof (dispatch_single_index e s H) as D.
  assert (S1 : state_of (step e s) = state_of (dispatch e s)).
  { rewrite step_state. cbv zeta. rewrite D, Z.eqb_refl. reflexivity. }
  assert (L1 : log_of (step e s) = log_of (dispatch e s)).
  { rewrite step_log. cbv zeta. rewrite D, Z.eqb_refl. apply app_nil_r. }
  assert (H' : totalSlides (state_of (step e s)) <= 1).
  { rewrite (totalSlides_ext s) by apply step_slidesSource. exact H. }
  destruct (IH _ H') as [I1 I2].
  split.
  - rewrite I1, S1. exact D.
  - rewrite forallb_app, I2, L1, andb_true_r.
    clear. destruct s.
    eval_dispatch e; reflexivity.
Qed.

Lemma single_slide_never_navigates_witness :
  currentIndex
    (state_of (run [PointerDown 1 300; PointerMove 100; PointerUp 100;
                    KeyDown false ArrowRight]
                 (mounted onePromo 600))) = 0.
Proof.
  apply (single_slide_never_navigates (mounted onePromo 600)).
  apply Z.leb_le. reflexivity.
Defined.

(** ** The cursor while the modal is open *)

Lemma dispatch_cursor_kept (e : Event) (s : State) :
  cursor_kept_while_modal s ->
  cursor_kept_while_modal (state_of (dispatch e s)).
Proof.
  unfold cursor_kept_while_modal. intros H.
  destruct s; eval_hyps.
  eval_dispatch e; intuition congruence.
Qed.

(** Hiding the idle cursor is suppressed while the modal is open: from a
    state where an open modal has the cursor shown and no timeout pending
    (the mounted state, whose modal is closed, is one), every sequence of
    events keeps it so; in particular the timeout never hides the cursor
    behind an open modal. *)
Theorem cursor_shown_while_modal_open (s : State) (es : list Event) :
  cursor_kept_while_modal s ->
  cursor_kept_while_modal (state_of (run es s)).
Proof.
  revert s. induction es as [|e es IH]; intros s H; [exact H|].
  rewrite run_cons. apply IH.
  unfold cursor_kept_while_modal in *.
  rewrite (step_cache_only e s). apply (dispatch_cursor_kept e s H).
Qed.

Lemma cursor_shown_while_modal_open_witness :
  cursor_kept_while_modal
    (state_of (run [PointerDown 1 100; PointerUp 100; CursorTimeout;
                    PointerMove 5; CursorTimeout]
                 (mounted fivePromos 600))).
Proof.
  apply (cursor_shown_while_modal_open (mounted fivePromos 600)).
  intros H. discriminate H.
Defined.

(** ** Pointer moves: when dragging engages *)

Lemma handlePointerMove_run (x : Z) (s : State) :
  isPointerDown s = true ->
  isModalOpen s = false ->
  handlePointerMove x s =
  (tt,
   if isDragging s then set_dragOffset (displacement x s) s
   else if 20 <? Z.abs (displacement x s)
        then set_dragOffset (displacement x s)
               (set_isAnimating false (set_isDragging true s))
        else s,
   []).
Proof.
  intros Hd Ho. unfold displacement. destruct s; eval_hyps; subst.
  match goal with
  | |- ?t = _ => pattern t
  end.
  match goal with
  | |- ?P _ =>
      let Q := fresh "Q" in
      set (Q := P); eval_step; repeat (split_test; eval_step); subst Q;
      cbv beta
  end; eval_step; repeat (use_known; eval_step); reflexivity.
Qed.

Lemma pointerMoves_cons (x : Z) (xs : list Z) (s : State) :
  pointerMoves (x :: xs) s =
  (tt, state_of (pointerMoves xs (state_of (handlePointerMove x s))),
   log_of (handlePointerMove x s) ++
   log_of (pointerMoves xs (state_of (handlePointerMove x s)))).
Proof.
  cbn [pointerMoves]. unfold bind, state_of, log_of.
  destruct (handlePointerMove x s) as [[[] s1] l1]. cbn [fst snd].
  destruct (pointerMoves xs s1) as [[[] s2] l2]. reflexivity.
Qed.

Lemma pointerMoves_general (xs : list Z) :
  forall s,
    isPointerDown s = true ->
    isModalOpen s = false ->
    let r := pointerMoves xs s in
    isDragging (state_of r) =
      (isDragging s || existsb (fun x => 20 <? Z.abs (displacement x s)) xs)%bool /\
    dragOffset (state_of r) =
      (if isDragging (state_of r)
       then match xs with
            | [] => dragOffset s
            | _ => displacement (last xs 0) s
            end
       else dragOffset s) /\
    log_of r = [] /\
    currentIndex (state_of r) = currentIndex s /\
    dragStartX (state_of r) = dragStartX s /\
    isPointerDown (state_of r) = true /\
    isModalOpen (state_of r) = false.
Proof.
  induction xs as [|x xs IH]; intros s Hd Ho.
  - cbn. rewrite orb_false_r. destruct (isDragging s); repeat split; auto.
  - cbv zeta. rewrite pointerMoves_cons.
    rewrite (handlePointerMove_run x s Hd Ho).
    cbn [state_of log_of fst snd app existsb].
    set (s1 := if isDragging s then _ else _).
    assert (F : isPointerDown s1 = true /\ isModalOpen s1 = false /\
                dragStartX s1 = dragStartX s /\
                currentIndex s1 = currentIndex s /\
                isDragging s1 =
                  (isDragging s || (20 <? Z.abs (displacement x s)))%bool /\
                (isDragging s1 = true -> dragOffset s1 = displacement x s) /\
                (isDragging s1 = false -> dragOffset s1 = dragOffset s)).
    { subst s1. destruct (isDragging s) eqn:Eg;
        [|destruct (20 <? Z.abs (displacement x s)) eqn:Ea];
        cbn; repeat split; auto; try congruence. }
    destruct F as (F1 & F2 & F3 & F4 & F5 & F6 & F7).
    destruct (IH s1 F1 F2) as (I1 & I2 & I3 & I4 & I5 & I6 & I7).
    assert (Ex : existsb (fun y => 20 <? Z.abs (displacement y s1)) xs =
                 existsb (fun y => 20 <? Z.abs (displacement y s)) xs).
    { clear -F3. induction xs as [|y ys IHy]; [reflexivity|].
      cbn [existsb]. rewrite IHy. unfold displacement. rewrite F3.
      reflexivity. }
    rewrite Ex in I1.
    assert (Dx : forall y, displacement y s1 = displacement y s)
      by (intros y; unfold displacement; rewrite F3; reflexivity).
    split; [rewrite I1, F5, orb_assoc; reflexivity|].
    split.
    + rewrite I2. destruct (isDragging (state_of (pointerMoves xs s1))) eqn:Eg.
      * destruct xs as [|y ys].
        -- cbn [last]. apply F6. cbn in I1. rewrite orb_false_r in I1.
           congruence.
        -- rewrite Dx. reflexivity.
      * apply F7.
        assert (G : (isDragging s1 ||
                     existsb (fun y => 20 <? Z.abs (displacement y s)) xs)%bool
                    = false) by congruence.
        apply orb_false_iff in G. apply G.
    + repeat split; try congruence.
Qed.

(** After a pointer-down on the carousel, dragging is engaged by the moves
    exactly when one of them was more than 20 pixels from the start, and it
    stays engaged when the pointer comes back; the drag offset is then the
    displacement of the latest move, and 0 otherwise.  Moves call nothing
    and leave the index alone. *)
Theorem dragging_engages_beyond_20px (s : State) (xs : list Z) :
  isPointerDown s = true ->
  isModalOpen s = false ->
  isDragging s = false ->
  dragOffset s = 0 ->
  let r := pointerMoves xs s in
  isDragging (state_of r) =
    existsb (fun x => 20 <? Z.abs (displacement x s)) xs /\
  dragOffset (state_of r) =
    (if isDragging (state_of r) then displacement (last xs 0) s else 0) /\
  log_of r = [] /\
  currentIndex (state_of r) = currentIndex s.
Proof.
  intros Hd Ho Hg Hz r. subst r.
  destruct (pointerMoves_general xs s Hd Ho) as (I1 & I2 & I3 & I4 & _).
  rewrite Hg in I1. cbn [orb] in I1.
  split; [exact I1|]. split; [|split; assumption].
  rewrite I2, Hz.
  destruct xs as [|y ys]; [|reflexivity].
  cbn [pointerMoves ret state_of fst snd]. rewrite Hg. reflexivity.
Qed.

Lemma dragging_engages_beyond_20px_witness :
  let r := pointerMoves [110; 130; 105] pressedState in
  isDragging (state_of r) = true /\ dragOffset (state_of r) = 5.
Proof.
  pose proof (dragging_engages_beyond_20px pressedState [110; 130; 105]
                eq_refl eq_refl eq_refl eq_refl) as H.
  cbv zeta in H. destruct H as (H1 & H2 & _).
  split; [exact H1|]. rewrite H2, H1. reflexivity.
Defined.

(** ** Whole gestures *)

(** Evaluates the handler computation of the goal, using the hypotheses
    about its tests. *)
Ltac eval_goal_handler t :=
  pattern t;
  match goal with
  | |- ?P _ =>
      let Q := fresh "Q" in
      set (Q := P); eval_step;
      repeat (first [use_known | split_test]; eval_step);
      subst Q; cbv beta
  end; eval_step; repeat (use_known; eval_step).

(** A press followed at once by a release, with no move in between, is a
    tap wherever the release happens: with the modal closed it opens the
    modal by one [openModal] call, calls neither [goNext] nor [goPrev],
    keeps the index and ends with the drag state cleared. *)
Theorem press_release_is_tap (s : State) (pid x0 x1 : Z) :
  isModalOpen s = false ->
  let r := (handlePointerDown pid x0 ;; handlePointerUp x1) s in
  log_of r = [CallOpenModal] /\
  isModalOpen (state_of r) = true /\
  modalError (state_of r) = "" /\
  currentIndex (state_of r) = currentIndex s /\
  drag_reset (state_of r).
Proof.
  intros Ho r. subst r. unfold drag_reset.
  destruct s; eval_hyps; subst.
  match goal with
  | |- context [log_of ?t] => eval_goal_handler t
  end; repeat split; reflexivity.
Qed.

Lemma press_release_is_tap_witness :
  let r := (handlePointerDown 1 0 ;; handlePointerUp 500)
             (mounted fivePromos 600) in
  log_of r = [CallOpenModal] /\ isModalOpen (state_of r) = true.
Proof.
  pose proof (press_release_is_tap (mounted fivePromos 600) 1 0 500 eq_refl)
    as H.
  cbv zeta in H. destruct H as (H1 & H2 & _). split; assumption.
Defined.

(** A drag released between the two thresholds (more than 20 pixels from
    the start, less than the navigation threshold) does nothing but snap
    back: no call, modal still closed, same index, transition re-enabled and
    drag state cleared. *)
Theorem short_drag_snaps_back (s : State) (x : Z) :
  isPointerDown s = true ->
  isDragging s = true ->
  isModalOpen s = false ->
  20 < Z.abs (displacement x s) ->
  Qltb (inject_Z (Z.abs (displacement x s))) (pointerThreshold s) = true ->
  let r := handlePointerUp x s in
  log_of r = [] /\
  isModalOpen (state_of r) = false /\
  currentIndex (state_of r) = currentIndex s /\
  isAnimating (state_of r) = isAnimating s /\
  allowTransition (state_of r) = true /\
  drag_reset (state_of r).
Proof.
  intros Hd Hg Ho Ha Hq r. subst r. unfold drag_reset, displacement in *.
  apply Z.leb_gt in Ha.
  destruct s; eval_hyps; subst.
  match goal with
  | |- context [log_of ?t] => eval_goal_handler t
  end; repeat split; reflexivity.
Qed.

Lemma short_drag_snaps_back_witness :
  let s := state_of (run [PointerDown 1 300; PointerMove 200]
                       (mounted fivePromos 600)) in
  let r := handlePointerUp 200 s in
  log_of r = [] /\ currentIndex (state_of r) = 0 /\
  allowTransition (state_of r) = true.
Proof.
  pose proof (short_drag_snaps_back
                (state_of (run [PointerDown 1 300; PointerMove 200]
                             (mounted fivePromos 600))) 200
                eq_refl eq_refl eq_refl) as H.
  assert (Ha : 20 < Z.abs (displacement 200
                 (state_of (run [PointerDown 1 300; PointerMove 200]
                              (mounted fivePromos 600)))))
    by (apply Z.ltb_lt; reflexivity).
  destruct (H Ha eq_refl) as (H1 & _ & H3 & _ & H5 & _).
  split; [exact H1 | split; [exact H3 | exact H5]].
Defined.

(** A drag released beyond the navigation threshold towards an end the
    index is already at calls [goNext] (or [goPrev]) to no effect: the index
    stays, the modal stays closed, the drag state is cleared, and the
    transition flag is left as the gesture had it; no branch of the release
    re-enables it. *)
Theorem edge_drag_release (s : State) (x : Z) :
  isPointerDown s = true ->
  isDragging s = true ->
  2 <= totalSlides s ->
  Qltb (inject_Z (Z.abs (displacement x s))) (pointerThreshold s) = false ->
  (displacement x s < 0 /\ currentIndex s = totalSlides s - 1) \/
  (0 <= displacement x s /\ currentIndex s = 0) ->
  let r := handlePointerUp x s in
  currentIndex (state_of r) = currentIndex s /\
  isModalOpen (state_of r) = isModalOpen s /\
  calls CallOpenModal (log_of r) = 0%nat /\
  allowTransition (state_of r) = allowTransition s /\
  drag_reset (state_of r).
Proof.
  intros Hd Hg Ht Hq He r. subst r.
  assert (Hr : hasRealSlides s = true).
  { unfold totalSlides, slides in Ht.
    destruct (hasRealSlides s); [reflexivity | cbn in Ht; lia]. }
  assert (Hs : (totalSlides s <=? 1) = false) by (apply Z.leb_gt; lia).
  assert (Hc : ((displacement x s <? 0) = true /\
                (totalSlides s - 1 <=? currentIndex s) = true) \/
               ((displacement x s <? 0) = false /\
                (currentIndex s <=? 0) = true)).
  { destruct He as [[H1 H2]|[H1 H2]]; [left|right]; split;
      bool_to_prop; lia. }
  clear He Ht. unfold drag_reset, displacement in *.
  unfold totalSlides, slides in Hs, Hc. rewrite Hr in Hs, Hc.
  destruct s; eval_hyps; subst.
  destruct Hc as [[H1 H2]|[H1 H2]];
    match goal with
    | |- context [log_of ?t] => eval_goal_handler t
    end; repeat split; reflexivity.
Qed.

Lemma edge_drag_release_witness :
  let r := handlePointerUp 100 lastSlideDragState in
  currentIndex (state_of r) = 4 /\
  allowTransition (state_of r) = false.
Proof.
  pose proof (edge_drag_release lastSlideDragState 100 eq_refl eq_refl) as H.
  assert (Ht : 2 <= totalSlides lastSlideDragState)
    by (apply Z.leb_le; reflexivity).
  assert (He : (displacement 100 lastSlideDragState < 0 /\
                currentIndex lastSlideDragState =
                  totalSlides lastSlideDragState - 1) \/
               (0 <= displacement 100 lastSlideDragState /\
                currentIndex lastSlideDragState = 0)).
  { left. split; [apply Z.ltb_lt|]; reflexivity. }
  destruct (H Ht eq_refl He) as (H1 & _ & _ & H4 & _).
  split; [exact H1 | exact H4].
Defined.

(** ** Walking along the carousel *)

Lemma navigate_pair_next (s : State) :
  2 <= totalSlides s ->
  isAnimating s = false ->
  index_in_range s ->
  let s' := state_of (navigateAll [NavNext; NavTransitionEnd] s) in
  currentIndex s' = Z.min (currentIndex s + 1) (totalSlides s - 1) /\
  isAnimating s' = false /\ slidesSource s' = slidesSource s.
Proof.
  intros Ht Ha Hi. cbv zeta.
  rewrite navigateAll_cons. cbn [navigate]. rewrite goNext_run.
  assert (Hr : hasRealSlides s = true).
  { unfold totalSlides, slides in Ht.
    destruct (hasRealSlides s); [reflexivity | cbn in Ht; lia]. }
  rewrite Hr, Ha. cbn [negb orb state_of fst snd].
  destruct (Z.leb_spec (totalSlides s) 1); [lia|].
  rewrite navigateAll_cons. cbn [navigate navigateAll ret state_of fst snd].
  rewrite finishTransitionIfNeeded_run. cbn [state_of fst snd].
  unfold index_in_range in Hi.
  destruct (Z.leb_spec (totalSlides s - 1) (currentIndex s)).
  - rewrite Ha. repeat split; auto. lia.
  - cbn. repeat split; auto. lia.
Qed.

Lemma navigate_pair_prev (s : State) :
  2 <= totalSlides s ->
  isAnimating s = false ->
  index_in_range s ->
  let s' := state_of (navigateAll [NavPrev; NavTransitionEnd] s) in
  currentIndex s' = Z.max (currentIndex s - 1) 0 /\
  isAnimating s' = false /\ slidesSource s' = slidesSource s.
Proof.
  intros Ht Ha Hi. cbv zeta.
  rewrite navigateAll_cons. cbn [navigate]. rewrite goPrev_run.
  assert (Hr : hasRealSlides s = true).
  { unfold totalSlides, slides in Ht.
    destruct (hasRealSlides s); [reflexivity | cbn in Ht; lia]. }
  rewrite Hr, Ha. cbn [negb orb state_of fst snd].
  destruct (Z.leb_spec (totalSlides s) 1); [lia|].
  rewrite navigateAll_cons. cbn [navigate navigateAll ret state_of fst snd].
  rewrite finishTransitionIfNeeded_run. cbn [state_of fst snd].
  unfold index_in_range in Hi.
  destruct (Z.leb_spec (currentIndex s) 0).
  - rewrite Ha. repeat split; auto. lia.
  - cbn. repeat split; auto. lia.
Qed.

Lemma navigateAll_app (ns ms : list Nav) (s : State) :
  state_of (navigateAll (ns ++ ms) s) =
  state_of (navigateAll ms (state_of (navigateAll ns s))).
Proof.
  revert s. induction ns as [|n ns IH]; intros s; [reflexivity|].
  cbn [app]. rewrite !navigateAll_cons. apply IH.
Qed.

Lemma forward_steps (n : nat) :
  forall s,
    2 <= totalSlides s -> isAnimating s = false -> index_in_range s ->
    let s' := state_of (navigateAll (forward n) s) in
    currentIndex s' = Z.min (currentIndex s + Z.of_nat n) (totalSlides s - 1) /\
    isAnimating s' = false /\ slidesSource s' = slidesSource s.
Proof.
  induction n as [|n IH]; intros s Ht Ha Hi.
  - cbn. unfold index_in_range in Hi. repeat split; auto. lia.
  - cbv zeta. change (forward (S n)) with ([NavNext; NavTransitionEnd] ++ forward n).
    rewrite navigateAll_app.
    destruct (navigate_pair_next s Ht Ha Hi) as (P1 & P2 & P3).
    remember (state_of (navigateAll [NavNext; NavTransitionEnd] s)) as s1 eqn:Es1.
    assert (T1 : totalSlides s1 = totalSlides s) by (apply totalSlides_ext, P3).
    assert (I1 : index_in_range s1).
    { unfold index_in_range in *. rewrite T1, P1. lia. }
    destruct (IH s1 ltac:(lia) P2 I1) as (Q1 & Q2 & Q3).
    unfold index_in_range in Hi.
    split; [rewrite Q1, T1, P1; lia | split; [exact Q2 | congruence]].
Qed.

Lemma backward_steps (n : nat) :
  forall s,
    2 <= totalSlides s -> isAnimating s = false -> index_in_range s ->
    let s' := state_of (navigateAll (backward n) s) in
    currentIndex s' = Z.max (currentIndex s - Z.of_nat n) 0 /\
    isAnimating s' = false /\ slidesSource s' = slidesSource s.
Proof.
  induction n as [|n IH]; intros s Ht Ha Hi.
  - cbn. unfold index_in_range in Hi. repeat split; auto. lia.
  - cbv zeta. change (backward (S n)) with ([NavPrev; NavTransitionEnd] ++ backward n).
    rewrite navigateAll_app.
    destruct (navigate_pair_prev s Ht Ha Hi) as (P1 & P2 & P3).
    remember (state_of (navigateAll [NavPrev; NavTransitionEnd] s)) as s1 eqn:Es1.
    assert (T1 : totalSlides s1 = totalSlides s) by (apply totalSlides_ext, P3).
    assert (I1 : index_in_range s1).
    { unfold index_in_range in *. rewrite T1, P1. lia. }
    destruct (IH s1 ltac:(lia) P2 I1) as (Q1 & Q2 & Q3).
    unfold index_in_range in Hi.
    split; [rewrite Q1, P1; lia | split; [exact Q2 | congruence]].
Qed.

(** On a carousel of at least two slides at rest, [n] completed requests
    for the next slide lead to index min(index + n, count - 1), and [m]
    completed requests for the previous slide after them lead back by [m],
    stopping at 0: the walk saturates at both ends, and going [n] steps
    forward and back again returns to the starting index whenever the [n]
    steps fitted. *)
Theorem walk_saturates (s : State) (n m : nat) :
  2 <= totalSlides s ->
  isAnimating s = false ->
  index_in_range s ->
  let s1 := state_of (navigateAll (forward n) s) in
  let s2 := state_of (navigateAll (forward n ++ backward m) s) in
  currentIndex s1 = Z.min (currentIndex s + Z.of_nat n) (totalSlides s - 1) /\
  currentIndex s2 = Z.max (currentIndex s1 - Z.of_nat m) 0 /\
  (currentIndex s + Z.of_nat n <= totalSlides s - 1 -> m = n ->
   currentIndex s2 = currentIndex s).
Proof.
  intros Ht Ha Hi s1 s2.
  destruct (forward_steps n s Ht Ha Hi) as (F1 & F2 & F3).
  fold s1 in F1, F2, F3.
  assert (T1 : totalSlides s1 = totalSlides s) by (apply totalSlides_ext, F3).
  assert (I1 : index_in_range s1).
  { unfold index_in_range in *. rewrite T1, F1. lia. }
  destruct (backward_steps m s1 ltac:(lia) F2 I1) as (B1 & _ & _).
  assert (E : s2 = state_of (navigateAll (backward m) s1))
    by (subst s1 s2; apply navigateAll_app).
  rewrite E. split; [exact F1|]. split; [exact B1|].
  intros Hfit ->. rewrite B1, F1. unfold index_in_range in Hi. lia.
Qed.

Lemma walk_saturates_witness :
  currentIndex
    (state_of (navigateAll (forward 7) (mounted fivePromos 600))) =
  Z.min (currentIndex (mounted fivePromos 600) + Z.of_nat 7)
        (totalSlides (mounted fivePromos 600) - 1).
Proof.
  pose proof (walk_saturates (mounted fivePromos 600) 7 0) as H.
  assert (Ht : 2 <= totalSlides (mounted fivePromos 600))
    by (apply Z.leb_le; reflexivity).
  assert (Hi : index_in_range (mounted fivePromos 600))
    by (split; apply Z.leb_le; reflexivity).
  exact (proj1 (H Ht eq_refl Hi)).
Defined.

(** While a transition is in progress every request to navigate is
    dropped: any sequence of [goNext] and [goPrev] calls leaves the whole
    state as it was. *)
Theorem requests_dropped_while_animating (s : State) (ns : list Nav) :
  isAnimating s = true ->
  forallb is_request ns = true ->
  state_of (navigateAll ns s) = s.
Proof.
  intros Ha. induction ns as [|n ns IH]; intros Hns; [reflexivity|].
  cbn [forallb] in Hns. apply andb_true_iff in Hns. destruct Hns as [Hn Hns].
  rewrite navigateAll_cons.
  assert (E : state_of (navigate n s) = s).
  { destruct n; try discriminate Hn; cbn [navigate];
      rewrite ?goNext_run, ?goPrev_run, Ha; cbn [state_of fst snd];
      destruct (negb (hasRealSlides s) || (totalSlides s <=? 1));
      reflexivity. }
  rewrite E. apply IH, Hns.
Qed.

Lemma requests_dropped_while_animating_witness :
  let s := state_of (goNext (mounted fivePromos 600)) in
  state_of (navigateAll [NavNext; NavNext; NavPrev] s) = s.
Proof.
  apply (requests_dropped_while_animating
           (state_of (goNext (mounted fivePromos 600)))
           [NavNext; NavNext; NavPrev]); reflexivity.
Defined.

(** ** The navigation threshold in whole pixels *)

(** On a container of non-negative width, a whole-pixel distance reaches
    the navigation threshold exactly when it is at least 160 for a width of
    0 (not measured) or of 640 and more, and at least a quarter of the width
    otherwise; a distance of 0 never reaches it. *)
Theorem threshold_in_pixels (w a : Z) :
  0 <= w ->
  (Qltb (inject_Z a) (thresholdFor w) = false <->
   if (w =? 0) || (640 <=? w) then 160 <= a else w <= 4 * a) /\
  Qltb (inject_Z 0) (thresholdFor w) = true.
Proof.
  intros Hw. rewrite !Qltb_thresholdFor. split.
  - rewrite Z.ltb_ge.
    destruct (Z.eqb_spec w 0), (Z.leb_spec 640 w); cbn [orb]; lia.
  - apply Z.ltb_lt. destruct (Z.eqb_spec w 0); lia.
Qed.

Lemma threshold_in_pixels_witness :
  Qltb (inject_Z 150) (thresholdFor 600) = false <->
  (if (600 =? 0) || (640 <=? 600) then 160 <= 150 else 600 <= 4 * 150).
Proof.
  apply (threshold_in_pixels 600 150). apply Z.leb_le. reflexivity.
Defined.

(** ** Attempts to start the session *)

Lemma step_same_index (e : Event) (s : State) :
  currentIndex (state_of (dispatch e s)) = currentIndex s ->
  step e s = (tt, state_of (dispatch e s), log_of (dispatch e s)).
Proof.
  intros H. unfold step, bind, gets, when, state_of, log_of in *.
  destruct (dispatch e s) as [[[] s1] l1]. cbn [fst snd] in *.
  rewrite H, Z.eqb_refl. cbn [negb ret]. rewrite !app_nil_r. reflexivity.
Qed.

Lemma run_app (es fs : list Event) (s : State) :
  state_of (run (es ++ fs) s) = state_of (run fs (state_of (run es s))) /\
  log_of (run (es ++ fs) s) =
    log_of (run es s) ++ log_of (run fs (state_of (run es s))).
Proof.
  revert s. induction es as [|e es IH]; intros s; [split; reflexivity|].
  cbn [app]. rewrite !run_cons, !run_log_cons.
  destruct (IH (state_of (step e s))) as [I1 I2].
  rewrite I1, I2, app_assoc. split; reflexivity.
Qed.

Lemma attempt_run (o : FetchOutcome) (s : State) :
  isModalOpen s = true ->
  isStartingSession s = false ->
  requestsInFlight s = 0%nat ->
  let r := run (attempt o) s in
  isStartingSession (state_of r) = false /\
  requestsInFlight (state_of r) = 0%nat /\
  isModalOpen (state_of r) = is_failure o /\
  log_of r =
    FetchSessionStart ::
    (if is_failure o then [] else [RouterPush "photo-session"]) /\
  (is_failure o = true -> modalError (state_of r) <> "").
Proof.
  intros Ho Hb Hf r. subst r. unfold attempt.
  rewrite run_cons, run_log_cons.
  assert (D1 : dispatch (KeyDown false Enter) s =
               (tt, set_requestsInFlight 1
                      (set_isStartingSession true (set_modalError "" s)),
                [FetchSessionStart])).
  { cbn [dispatch handleKeydown]. unfold bind, gets. rewrite Ho.
    rewrite (confirmStart_fresh s Hb), Hf. reflexivity. }
  rewrite (step_same_index (KeyDown false Enter) s)
    by (rewrite D1; reflexivity).
  rewrite D1. cbn [state_of log_of fst snd].
  set (s1 := set_requestsInFlight 1 _).
  rewrite run_cons, run_log_cons.
  assert (F : fallbackMessage <> "") by discriminate.
  assert (U : unexpectedMessage <> "") by discriminate.
  assert (D2 : currentIndex (state_of (dispatch (FetchSettled o) s1)) =
               currentIndex s1).
  { cbn [dispatch]. unfold when, confirmStart_settled.
    destruct (negb (requestsInFlight s1 =? 0)%nat); [|reflexivity].
    destruct (confirmStart_thrown o) as [[m|]|]; reflexivity. }
  rewrite (step_same_index (FetchSettled o) s1 D2).
  cbn [state_of log_of fst snd run ret]. rewrite app_nil_r.
  subst s1. unfold is_failure. clear D1 D2.
  destruct s; eval_hyps; subst.
  cbn [dispatch]. unfold when, confirmStart_settled.
  destruct (confirmStart_thrown o) as [[m|]|]; eval_step;
    repeat split; try reflexivity; try discriminate;
    intros _; try exact U; apply str_or_nonempty, U.
Qed.

(** Retrying: on the open modal, any number of attempts that fail, each
    followed by a new press of Enter, then one that succeeds, issue exactly
    one request per attempt and exactly one navigation, after the last; the
    modal is open after every failure and closed at the end. *)
Theorem retry_until_success (s : State) (failed : list FetchOutcome)
    (body : Body) :
  isModalOpen s = true ->
  isStartingSession s = false ->
  requestsInFlight s = 0%nat ->
  forallb is_failure failed = true ->
  let r := run (flat_map attempt failed ++ attempt (Responded true body)) s in
  log_of r =
    repeat FetchSessionStart (S (List.length failed)) ++
    [RouterPush "photo-session"] /\
  isModalOpen (state_of (run (flat_map attempt failed) s)) = true /\
  isModalOpen (state_of r) = false /\
  isStartingSession (state_of r) = false.
Proof.
  intros Ho Hb Hf Hfail r. subst r.
  assert (G : forall fs s0,
             isModalOpen s0 = true -> isStartingSession s0 = false ->
             requestsInFlight s0 = 0%nat ->
             forallb is_failure fs = true ->
             let r := run (flat_map attempt fs) s0 in
             isModalOpen (state_of r) = true /\
             isStartingSession (state_of r) = false /\
             requestsInFlight (state_of r) = 0%nat /\
             log_of r = repeat FetchSessionStart (List.length fs)).
  { clear. induction fs as [|o fs IH]; intros s0 Ho Hb Hf Hfs.
    - cbn. auto.
    - cbn [forallb] in Hfs. apply andb_true_iff in Hfs.
      destruct Hfs as [Hofail Hfs]. cbv zeta. cbn [flat_map].
      destruct (run_app (attempt o) (flat_map attempt fs) s0) as [A1 A2].
      rewrite A1, A2.
      destruct (attempt_run o s0 Ho Hb Hf) as (R1 & R2 & R3 & R4 & _).
      rewrite Hofail in R3, R4.
      destruct (IH _ R3 R1 R2 Hfs) as (I1 & I2 & I3 & I4).
      rewrite R4, I4. repeat split; auto. }
  destruct (G failed s Ho Hb Hf Hfail) as (G1 & G2 & G3 & G4).
  destruct (run_app (flat_map attempt failed) (attempt (Responded true body)) s)
    as [A1 A2].
  rewrite A1, A2, G4.
  destruct (attempt_run (Responded true body) _ G1 G2 G3)
    as (R1 & _ & R3 & R4 & _).
  unfold is_failure in R3, R4. cbn [confirmStart_thrown negb] in R3, R4.
  rewrite R4.
  repeat split; auto.
  change (S (List.length failed)) with (1 + List.length failed)%nat.
  rewrite Nat.add_comm, repeat_app. cbn [repeat].
  rewrite <- app_assoc. reflexivity.
Qed.

Lemma retry_until_success_witness :
  log_of
    (run (flat_map attempt
            [Responded false (BodyJson (Some "Camera offline"));
             Rejected (ThrownError "Failed to fetch")]
          ++ attempt (Responded true BodyMalformed)) modalState) =
  [FetchSessionStart; FetchSessionStart; FetchSessionStart;
   RouterPush "photo-session"].
Proof.
  exact (proj1 (retry_until_success modalState
                  [Responded false (BodyJson (Some "Camera offline"));
                   Rejected (ThrownError "Failed to fetch")]
                  BodyMalformed eq_refl eq_refl eq_refl eq_refl)).
Defined.

(** ** Navigation to the photo session *)

Lemma dispatch_push (e : Event) (s : State) :
  forallb push_to_session (log_of (dispatch e s)) = true.
Proof.
  destruct s. eval_dispatch e; reflexivity.
Qed.

Lemma step_push (e : Event) (s : State) :
  forallb push_to_session (log_of (step e s)) = true.
Proof.
  rewrite step_log. cbv zeta. rewrite forallb_app, dispatch_push.
  destruct (_ =? _); [reflexivity|].
  cbn [andb]. apply forallb_forall. intros c Hc.
  pose proof (preloadWatch_log (state_of (dispatch e s))) as H.
  rewrite forallb_forall in H. specialize (H c Hc).
  destruct c; try discriminate H. reflexivity.
Qed.

(** Whatever the events, the only route the component ever asks the router
    for is [photo-session], which the router's table resolves to the path
    [/photo-session] and whose guard lets every navigation through. *)
Theorem pushes_resolve_to_session (s : State) (es : list Event)
    (name from : string) :
  In (RouterPush name) (log_of (run es s)) ->
  name = "photo-session" /\ routerPush name from = Some "/photo-session".
Proof.
  intros Hin.
  assert (E : name = "photo-session").
  { revert s Hin. induction es as [|e es IH]; intros s Hin; [destruct Hin|].
    rewrite run_log_cons in Hin. apply in_app_or in Hin.
    destruct Hin as [Hin|Hin]; [|apply (IH _ Hin)].
    pose proof (step_push e s) as H. rewrite forallb_forall in H.
    specialize (H _ Hin). apply String.eqb_eq in H. exact H. }
  split; [exact E | subst name; reflexivity].
Qed.

Lemma pushes_resolve_to_session_witness :
  routerPush "photo-session" "home" = Some "/photo-session".
Proof.
  apply (pushes_resolve_to_session modalState
           (attempt (Responded true BodyMalformed)) "photo-session" "home").
  cbn. right. left. reflexivity.
Defined.

(** ** The neighbours the watcher preloads *)

Lemma preloadIndex_log_length (idx : Z) (s : State) :
  (List.length (log_of (preloadIndex idx s)) <= 1)%nat.
Proof.
  rewrite preloadIndex_run.
  destruct (slide_at (slides s) idx) as [[i src a|i m]|];
    try destruct (JsSet.has (preloadCache s) src); cbn; lia.
Qed.

(** With real slides and the index in range, the watcher preloads the
    current slide, the next one and the previous one, in this order, where
    the next of the last slide is the first and the previous of the first is
    the last; both neighbours are in range, and a run requests at most three
    images. *)
Theorem preload_neighbours_wrap (s : State) :
  hasRealSlides s = true ->
  index_in_range s ->
  preloadWatch s =
    (preloadIndex (currentIndex s) ;;
     preloadIndex (nextIndex s) ;;
     preloadIndex (prevIndex s)) s /\
  0 <= nextIndex s <= totalSlides s - 1 /\
  0 <= prevIndex s <= totalSlides s - 1 /\
  (List.length (log_of (preloadWatch s)) <= 3)%nat.
Proof.
  intros Hr Hi. unfold index_in_range in Hi.
  assert (En : Z.rem (currentIndex s + 1) (totalSlides s) = nextIndex s).
  { unfold nextIndex. destruct (Z.eqb_spec (currentIndex s) (totalSlides s - 1)).
    - replace (currentIndex s + 1) with (totalSlides s) by lia.
      apply Z.rem_same. lia.
    - apply Z.rem_small. lia. }
  assert (Ep : Z.rem (currentIndex s - 1 + totalSlides s) (totalSlides s) =
               prevIndex s).
  { unfold prevIndex. destruct (Z.eqb_spec (currentIndex s) 0) as [E|E].
    - rewrite E. replace (0 - 1 + totalSlides s) with (totalSlides s - 1)
        by lia.
      apply Z.rem_small. lia.
    - rewrite Z.rem_mod_nonneg by lia.
      replace (currentIndex s - 1 + totalSlides s)
        with (currentIndex s - 1 + 1 * totalSlides s) by lia.
      rewrite Z.mod_add by lia. apply Z.mod_small. lia. }
  assert (W : preloadWatch s =
              (preloadIndex (currentIndex s) ;;
               preloadIndex (nextIndex s) ;;
               preloadIndex (prevIndex s)) s).
  { unfold preloadWatch, return_if. rewrite Hr. cbn [negb].
    unfold bind at 1 2, gets. rewrite En, Ep.
    destruct ((preloadIndex (currentIndex s) ;;
               preloadIndex (nextIndex s) ;;
               preloadIndex (prevIndex s)) s) as [[[] s2] l2].
    reflexivity. }
  split; [exact W|].
  split; [unfold nextIndex; destruct (Z.eqb_spec (currentIndex s) (totalSlides s - 1)); lia|].
  split; [unfold prevIndex; destruct (Z.eqb_spec (currentIndex s) 0); lia|].
  rewrite W, !bind_log, !length_app.
  pose proof (preloadIndex_log_length (currentIndex s) s).
  pose proof (preloadIndex_log_length (nextIndex s)
                (state_of (preloadIndex (currentIndex s) s))).
  pose proof (preloadIndex_log_length (prevIndex s)
                (state_of (preloadIndex (nextIndex s)
                   (state_of (preloadIndex (currentIndex s) s))))).
  lia.
Qed.

Lemma preload_neighbours_wrap_witness :
  nextIndex lastSlideDragState = 0 /\
  log_of (preloadWatch
            (set_preloadCache [] lastSlideDragState)) =
  [ImageRequest "/images/promos/5.png"; ImageRequest "/images/promos/1.png";
   ImageRequest "/images/promos/4.png"].
Proof.
  assert (Hi : index_in_range (set_preloadCache [] lastSlideDragState))
    by (split; apply Z.leb_le; reflexivity).
  destruct (preload_neighbours_wrap (set_preloadCache [] lastSlideDragState)
              eq_refl Hi) as (W & _).
  split; [reflexivity|]. rewrite W. reflexivity.
Defined.

(** ** The slide list builder *)

Lemma append_assoc (a b c : string) :
  String.append (String.append a b) c = String.append a (String.append b c).
Proof. induction a as [|x a IH]; cbn; [reflexivity | rewrite IH; reflexivity]. Qed.

Lemma append_empty_r (a : string) : String.append a "" = a.
Proof. induction a as [|x a IH]; cbn; [reflexivity | rewrite IH; reflexivity]. Qed.

Lemma slashless_append (a b : string) :
  slashless (String.append a b) = slashless a && slashless b.
Proof.
  induction a as [|x a IH]; cbn; [reflexivity|].
  rewrite IH, andb_assoc. reflexivity.
Qed.

Lemma lastSegment_spec (path : string) :
  forall acc,
    slashless acc = true ->
    slashless (lastSegment acc path) = true /\
    exists dir,
      String.append acc path = String.append dir (lastSegment acc path) /\
      (dir = "" \/ exists d, dir = String.append d "/").
Proof.
  induction path as [|c rest IH]; intros acc Ha.
  - cbn [lastSegment]. split; [exact Ha|].
    exists "". split; [apply append_empty_r | left; reflexivity].
  - cbn [lastSegment]. destruct (Ascii.eqb_spec c "/"%char) as [->|Hc].
    + destruct (IH "" eq_refl) as (S1 & dir & E & Hd). split; [exact S1|].
      exists (String.append acc (String "/" dir)). split.
      * rewrite append_assoc. cbn [String.append] in *.
        f_equal. f_equal. exact E.
      * right. destruct Hd as [->|[d ->]].
        -- exists acc. reflexivity.
        -- exists (String.append acc (String "/" d)).
           rewrite append_assoc. reflexivity.
    + assert (Ha' : slashless (String.append acc (String c "")) = true).
      { rewrite slashless_append, Ha. cbn.
        destruct (Ascii.eqb_spec c "/"%char); [contradiction|reflexivity]. }
      destruct (IH _ Ha') as (S1 & dir & E & Hd). split; [exact S1|].
      exists dir. split; [|exact Hd].
      rewrite <- E, append_assoc. reflexivity.
Qed.

(** The id of a slide is the part of the module path after its last slash:
    it holds no slash, and the path is a directory prefix, empty or ending
    in a slash, followed by it. *)
Theorem filenameOf_is_last_segment (path : string) :
  slashless (filenameOf path) = true /\
  exists dir,
    path = String.append dir (filenameOf path) /\
    (dir = "" \/ exists d, dir = String.append d "/").
Proof. apply (lastSegment_spec path "" eq_refl). Qed.

Section SlideListBuilderFacts.

Variable localeCompare : string -> string -> Z.
Variable labelOf : string -> string.

Lemma insertSlide_perm (sl : Slide) (l : list Slide) :
  Permutation (insertSlide localeCompare sl l) (sl :: l).
Proof.
  induction l as [|y l IH]; cbn [insertSlide]; [reflexivity|].
  destruct (0 <? _); [|reflexivity].
  rewrite IH. apply perm_swap.
Qed.

Lemma sortSlides_perm (l : list Slide) :
  Permutation (sortSlides localeCompare l) l.
Proof.
  induction l as [|sl l IH]; cbn; [reflexivity|].
  rewrite insertSlide_perm. constructor. exact IH.
Qed.

Lemma promoSlides_perm (modules : list (string * ModuleValue)) :
  Permutation (promoSlides localeCompare labelOf modules)
              (map (entrySlide labelOf) (filter valid_entry modules)).
Proof. apply sortSlides_perm. Qed.

Lemma promoSlides_In (modules : list (string * ModuleValue)) (sl : Slide) :
  In sl (promoSlides localeCompare labelOf modules) <->
  exists path url,
    In (path, UrlString url) modules /\ url <> "" /\
    sl = ImageSlide (filenameOf path) url
           (String.append (labelOf (filenameOf path)) " promotion").
Proof.
  split.
  - intros H. apply (Permutation_in _ (promoSlides_perm modules)) in H.
    apply in_map_iff in H. destruct H as ([path v] & E & H).
    apply filter_In in H. destruct H as [Hin Hv].
    destruct v as [url|]; [|discriminate Hv].
    exists path, url. split; [exact Hin|]. split; [|symmetry; exact E].
    unfold valid_entry, truthy in Hv. cbn in Hv.
    destruct (String.eqb_spec url ""); [discriminate | assumption].
  - intros (path & url & Hin & Hu & ->).
    apply (Permutation_in _ (Permutation_sym (promoSlides_perm modules))).
    apply in_map_iff. exists (path, UrlString url). split; [reflexivity|].
    apply filter_In. split; [exact Hin|].
    unfold valid_entry, truthy. cbn.
    destruct (String.eqb_spec url ""); [contradiction | reflexivity].
Qed.

(** The slide list holds exactly one image slide per module whose value is
    a non-empty URL string, whatever the order the comparison gives them:
    its id is the file name of the module path and its source the URL.
    Hence every source of the list is non-empty, and the list is as long as
    there are such modules. *)
Theorem promoSlides_are_valid_images (modules : list (string * ModuleValue)) :
  (forall sl,
     In sl (promoSlides localeCompare labelOf modules) <->
     exists path url,
       In (path, UrlString url) modules /\ url <> "" /\
       sl = ImageSlide (filenameOf path) url
              (String.append (labelOf (filenameOf path)) " promotion")) /\
  sources_nonempty (promoSlides localeCompare labelOf modules) /\
  List.length (promoSlides localeCompare labelOf modules) =
    List.length (filter valid_entry modules).
Proof.
  split; [apply promoSlides_In|]. split.
  - intros i src a H. apply promoSlides_In in H.
    destruct H as (path & url & _ & Hu & E). inversion E; subst. exact Hu.
  - rewrite (Permutation_length (promoSlides_perm modules)).
    apply length_map.
Qed.

End SlideListBuilderFacts.
(** ** No promo at all *)

Lemma run_single_slide (es : list Event) :
  forall s,
    totalSlides s <= 1 ->
    currentIndex (state_of (run es s)) = currentIndex s /\
    slidesSource (state_of (run es s)) = slidesSource s /\
    preloadCache (state_of (run es s)) = preloadCache s.
Proof.
  induction es as [|e es IH]; intros s H; [repeat split; reflexivity|].
  rewrite run_cons.
  pose proof (dispatch_single_index e s H) as D.
  destruct (dispatch_keeps_cache e s) as [K1 K2].
  assert (S1 : state_of (step e s) = state_of (dispatch e s))
    by (rewrite (step_same_index e s D); reflexivity).
  assert (H' : totalSlides (state_of (step e s)) <= 1).
  { rewrite (totalSlides_ext s) by apply step_slidesSource. exact H. }
  destruct (IH _ H') as (I1 & I2 & I3).
  rewrite I1, I2, I3, S1. repeat split; assumption.
Qed.

(** With no module that holds a non-empty URL string, the component shows
    the single placeholder slide and stays so whatever happens: one slide,
    index 0, an empty preload cache, a track of the placeholder alone. *)
Theorem no_assets_placeholder
    (localeCompare : string -> string -> Z) (labelOf : string -> string)
    (modules : list (string * ModuleValue)) (width : N) (es : list Event) :
  filter valid_entry modules = [] ->
  let s := state_of (run es (mounted (promoSlides localeCompare labelOf modules)
                               width)) in
  slides s = [placeholderSlide] /\
  totalSlides s = 1 /\
  currentIndex s = 0 /\
  preloadCache s = [] /\
  trackSlides s = [mkTrackSlide "placeholder" "placeholder" placeholderSlide].
Proof.
  intros Hf s.
  assert (E : promoSlides localeCompare labelOf modules = [])
    by (unfold promoSlides; rewrite Hf; reflexivity).
  subst s. rewrite E.
  assert (T : totalSlides (mounted [] width) <= 1)
    by (apply Z.leb_le; reflexivity).
  destruct (run_single_slide es (mounted [] width) T) as (I1 & I2 & I3).
  set (s := state_of (run es (mounted [] width))) in *.
  assert (Hs : slides s = [placeholderSlide])
    by (unfold slides, hasRealSlides; rewrite I2; reflexivity).
  unfold trackSlides, totalSlides, hasRealSlides. rewrite Hs, I1, I2, I3.
  repeat split; reflexivity.
Qed.

Lemma no_assets_placeholder_witness :
  let s := state_of (run [KeyDown false ArrowRight; PointerDown 1 300;
                          PointerMove 100; PointerUp 100]
                       (mounted (promoSlides (fun _ _ => 0) (fun x => x)
                                   [("promos/a.png", NotString);
                                    ("promos/b.png", UrlString "")])
                          600)) in
  slides s = [placeholderSlide] /\
  totalSlides s = 1 /\
  currentIndex s = 0 /\
  preloadCache s = [] /\
  trackSlides s = [mkTrackSlide "placeholder" "placeholder" placeholderSlide].
Proof.
  apply (no_assets_placeholder (fun _ _ => 0) (fun x => x)
           [("promos/a.png", NotString); ("promos/b.png", UrlString "")]
           600).
  reflexivity.
Defined.

(** ** The active slide of the track *)

Lemma trackSlides_originalIds (s : State) :
  map track_originalId (trackSlides s) = map slide_id (slides s).
Proof.
  unfold trackSlides.
  assert (P : forall l,
             map track_originalId
               (map (fun sl => mkTrackSlide (slide_id sl) (slide_id sl) sl) l) =
             map slide_id l).
  { intros l. rewrite map_map. reflexivity. }
  destruct (negb (hasRealSlides s)); [apply P|].
  pose proof (totalSlides_pos s) as Hp.
  destruct (Z.eqb_spec (totalSlides s) 0); [lia|].
  destruct (Z.eqb_spec (totalSlides s) 1) as [E|E]; [|apply P].
  unfold totalSlides in E.
  destruct (slides s) as [|single [|y l]]; cbn in E; try lia. reflexivity.
Qed.

(** With the index in range and slides of distinct ids, the track has one
    slide per slide of the list and marks exactly one of them active: the
    one at the current index. *)
Theorem one_active_slide (s : State) :
  index_in_range s ->
  NoDup (map slide_id (slides s)) ->
  List.length (trackSlides s) = List.length (slides s) /\
  forall k t,
    nth_error (trackSlides s) k = Some t ->
    (is_active s t = true <-> Z.of_nat k = currentIndex s).
Proof.
  intros Hi Hnd. unfold index_in_range, totalSlides in Hi.
  pose proof (trackSlides_originalIds s) as Ho.
  split.
  - rewrite <- (length_map track_originalId), Ho. apply length_map.
  - intros k t Hk.
    assert (Hid : nth_error (map slide_id (slides s)) k =
                  Some (track_originalId t)).
    { rewrite <- Ho. apply map_nth_error. exact Hk. }
    assert (Hc : exists sl,
               nth_error (slides s) (Z.to_nat (currentIndex s)) = Some sl).
    { destruct (nth_error (slides s) (Z.to_nat (currentIndex s))) eqn:E;
        [eexists; reflexivity|].
      apply nth_error_None in E. lia. }
    destruct Hc as [sl Hsl].
    assert (Ha : activeSlideId s = slide_id sl).
    { unfold activeSlideId, activeSlide, slide_at.
      destruct (Z.ltb_spec (currentIndex s) 0); [lia|].
      rewrite Hsl. reflexivity. }
    assert (Hcur : nth_error (map slide_id (slides s))
                     (Z.to_nat (currentIndex s)) = Some (slide_id sl))
      by (apply map_nth_error; exact Hsl).
    unfold is_active. rewrite Ha, String.eqb_eq. split.
    + intros E. rewrite E in Hid.
      assert (Hlt : (k < List.length (map slide_id (slides s)))%nat)
        by (apply nth_error_Some; congruence).
      pose proof (proj1 (NoDup_nth_error _) Hnd k
                    (Z.to_nat (currentIndex s)) Hlt) as Hu.
      rewrite Hu by congruence. lia.
    + intros E. assert (k = Z.to_nat (currentIndex s)) by lia. subst k.
      congruence.
Qed.

Lemma one_active_slide_witness :
  is_active midSlideDragState
    (mkTrackSlide "3.png" "3.png" (promo "3.png")) = true <->
  Z.of_nat 2 = currentIndex midSlideDragState.
Proof.
  apply (one_active_slide midSlideDragState).
  - split; apply Z.leb_le; reflexivity.
  - cbn. repeat constructor; cbn; intuition discriminate.
  - reflexivity.
Defined.

(** ** Opening and closing the modal *)

(** With the modal closed and no request in flight, the Enter key opens the
    modal and the Escape key closes it again: one [openModal] call, no
    request, and the state is the one before but for an empty error text, a
    shown cursor and a restarted idle timer. *)
Theorem open_then_escape (s : State) :
  isModalOpen s = false ->
  isStartingSession s = false ->
  run [KeyDown false Enter; KeyDown false Escape] s =
  (tt,
   set_cursorTimer true (set_cursorHidden false (set_modalError "" s)),
   [CallOpenModal]).
Proof.
  intros Ho Hb. destruct s; eval_hyps; subst.
  cbn [run]. unfold step.
  eval_step; rewrite Z.eqb_refl; eval_step; rewrite Z.eqb_refl; eval_step.
  reflexivity.
Qed.

Lemma open_then_escape_witness :
  run [KeyDown false Enter; KeyDown false Escape] (mounted fivePromos 600) =
  (tt,
   set_cursorTimer true
     (set_cursorHidden false (set_modalError "" (mounted fivePromos 600))),
   [CallOpenModal]).
Proof.
  apply (open_then_escape (mounted fivePromos 600)); reflexivity.
Defined.
